(** * FAMAST: colour interpolation of painting samples onto countries

    A shallow embedding of [claude2.py]: the map of the countries
    ([load_europe_map], [create_simple_europe_map]), ingestion of the
    painting table ([load_painting_data]), the per-year colouring of the
    countries ([interpolate_colors_to_countries]) and the frame driver
    ([animate_color_usage]), followed by the properties the specification
    states about them and by further properties of the code.

    Numbers.  The model has two layers.  Where only the order of numbers
    and the flow of the program matter (ingestion, the selection of the
    nearest paintings, the frames and the driver), Python floats are exact
    rationals ([Q]), with not-a-number kept as the constructor [NaN] of
    [pyfloat]; rounding, overflow and the infinities of binary64 are
    outside that layer.  What depends on the arithmetic itself (the
    weighted averages, the default of 0.5, the hexadecimal digits, the
    means behind the label) is stated on binary64 numbers in [Module B64],
    whose operations are those of IEEE 754 and compute the digits the code
    computes.

    Objects.  [europe_gdf] is a GeoDataFrame that the code copies and then
    updates in place; data frames of countries therefore live in a store of
    locations, and [.copy()] and [.at[idx, 'color'] = ...] are operations on
    that store.

    Libraries.  What shapely, numpy, geopandas and matplotlib do is a
    parameter of the model: the distance of two points, the draws of
    [np.random.random()], whether a path exists and what reading it gives,
    and whether drawing and saving a figure raises.  [rgb2hex], the
    centroid of the fallback outline and the formatting of numbers are
    written out. *)

From Stdlib Require Import ZArith QArith Qround Lia Lqa String Ascii List Sorted DecimalString.
From Stdlib Require DecimalNat DecimalZ.
From Stdlib Require Import Floats.

Set Warnings "-inexact-float".
From stdpp Require Import base option list gmap.

Local Open Scope Z_scope.

(** ** Python numbers *)

Module Py.

(** [a < b] on floats. *)
Definition ltb (a b : Q) : bool := Qnum a * QDen b <? Qnum b * QDen a.

(** [a <= b] on floats. *)
Definition leb (a b : Q) : bool := Qnum a * QDen b <=? Qnum b * QDen a.

(** [a == b] on floats. *)
Definition eqb (a b : Q) : bool := Qnum a * QDen b =? Qnum b * QDen a.

(** The builtin [max(a, b)]: the first argument unless a later one is
    strictly greater. *)
Definition max (a b : Q) : Q := if ltb a b then b else a.

(** The builtin [min(a, b)]: the first argument unless a later one is
    strictly smaller. *)
Definition min (a b : Q) : Q := if ltb b a then b else a.

(** [max(a, b, c)]. *)
Definition max3 (a b c : Q) : Q := max (max a b) c.

(** The builtin [round(x)]: to the nearest integer, halves to the even
    neighbour. *)
Definition round (x : Q) : Z :=
  let f := Qfloor x in
  let frac := (x - inject_Z f)%Q in
  if ltb frac 0.5 then f
  else if ltb 0.5 frac then f + 1
  else if Z.even f then f else f + 1.

(** [int(x)] and [astype(int)]: truncation towards zero. *)
Definition trunc (x : Q) : Z := Z.quot (Qnum x) (QDen x).

End Py.

(** The floats the code inspects with [np.isnan]. *)
Inductive pyfloat : Type :=
| NaN
| Fin (q : Q).

Definition isnan (x : pyfloat) : bool :=
  match x with NaN => true | Fin _ => false end.

(** A chained comparison [lo <= x <= hi]; every comparison with
    not-a-number is false. *)
Definition between (lo hi : Q) (x : pyfloat) : bool :=
  match x with
  | NaN => false
  | Fin q => Py.leb lo q && Py.leb q hi
  end.

(** ** Strings: hexadecimal and decimal formatting *)

Local Open Scope string_scope.

Definition hex_digit (n : Z) : ascii :=
  match n with
  | 0 => "0" | 1 => "1" | 2 => "2" | 3 => "3" | 4 => "4"
  | 5 => "5" | 6 => "6" | 7 => "7" | 8 => "8" | 9 => "9"
  | 10 => "a" | 11 => "b" | 12 => "c" | 13 => "d" | 14 => "e"
  | _ => "f"
  end%char.

(** The hexadecimal digits of a positive number, most significant first,
    in front of [acc]. *)
Fixpoint hex_of_pos (fuel : nat) (n : Z) (acc : string) : string :=
  match fuel with
  | O => acc
  | S fuel' =>
      let acc' := String (hex_digit (n mod 16)) acc in
      if (n / 16 =? 0)%Z then acc' else hex_of_pos fuel' (n / 16) acc'
  end.

Definition zfill (width : nat) (s : string) : string :=
  String.concat "" (repeat "0" (width - String.length s)) ++ s.

(** [format(n, '02x')]. *)
Definition format_02x (n : Z) : string :=
  if (n <? 0)%Z
  then "-" ++ zfill 1 (hex_of_pos (Z.to_nat (Z.log2 (- n)) + 1) (- n) "")
  else zfill 2 (hex_of_pos (Z.to_nat (Z.log2 n) + 1) n "").

(** [f'{i:03d}'] for an index. *)
Definition format_03d (i : nat) : string :=
  zfill 3 (NilZero.string_of_uint (Nat.to_uint i)).

(** [f'{year}'] for an integer. *)
Definition format_d (z : Z) : string :=
  NilZero.string_of_int (Z.to_int z).

Definition is_hex_digit (c : ascii) : bool :=
  let n := Z.of_nat (nat_of_ascii c) in
  ((48 <=? n) && (n <=? 57) || (65 <=? n) && (n <=? 70) || (97 <=? n) && (n <=? 102))%Z.

(** A colour string: [#] followed by exactly six hexadecimal digits. *)
Definition is_hex_color (s : string) : bool :=
  match s with
  | String "#" rest =>
      (String.length rest =? 6)%nat && forallb is_hex_digit (list_ascii_of_string rest)
  | _ => false
  end.

(** Exactly two hexadecimal digits. *)
Definition two_hex_digits (s : string) : bool :=
  match s with
  | String c1 (String c2 EmptyString) => is_hex_digit c1 && is_hex_digit c2
  | _ => false
  end.

(** Every character of a string passes a test. *)
Fixpoint every_char (ok : ascii -> bool) (s : string) : bool :=
  match s with
  | EmptyString => true
  | String c rest => ok c && every_char ok rest
  end.

Definition is_decimal_digit (c : ascii) : bool :=
  let n := Z.of_nat (nat_of_ascii c) in
  ((48 <=? n) && (n <=? 57))%Z.

(** ** matplotlib's [rgb2hex] *)

(** [rgb2hex((r, g, b))] is
    ['#' + ''.join(format(round(val * 255), '02x') for val in c)] and
    raises [ValueError] (here [None]) when a channel is outside [0, 1]. *)
Definition rgb2hex (r g b : Q) : option string :=
  if Py.leb 0 r && Py.leb r 1 && Py.leb 0 g && Py.leb g 1 && Py.leb 0 b && Py.leb b 1
  then Some ("#" ++ format_02x (Py.round (r * 255))
                 ++ format_02x (Py.round (g * 255))
                 ++ format_02x (Py.round (b * 255)))
  else None.

(** The gray the code writes whenever it has no colour to give. *)
Definition default_gray : string := "#CCCCCC".

(** ** Data model *)

(** A shapely [Point(x, y)]; for a painting [x] is the longitude and [y] the
    latitude. *)
Record point : Type := Point { px : Q; py : Q }.

(** A row of the painting table after ingestion: no cell is missing, the
    year is an integer and [geometry] is the point built from the
    coordinates. *)
Module Painting.
Record t : Type := Row {
  year : Z;
  latitude : Q;
  longitude : Q;
  red_pct : Q;
  green_pct : Q;
  blue_pct : Q;
  geometry : point
}.
End Painting.

(** A row of the countries' GeoDataFrame.  [centroid] is what
    [country.geometry.centroid] evaluates to; it is [None] for a row without
    geometry, where that expression raises.  [color] is the cell of the
    ['color'] column, [None] while nothing has been written there. *)
Module Country.
Record t : Type := Row {
  NAME : string;
  centroid : option point;
  color : option string
}.

Definition with_color (c : string) (country : t) : t :=
  {| NAME := NAME country; centroid := centroid country; color := Some c |}.
End Country.

(** ** [list.sort] and [sorted] *)

(** Python's sort is stable and only ever asks whether one key is smaller
    than another.  Insertion from the right gives the same list: an element
    goes behind exactly the elements that are strictly smaller. *)
Section Sorting.
Context {A : Type} (lt : A -> A -> bool).

Fixpoint insert_sorted (x : A) (l : list A) : list A :=
  match l with
  | [] => [x]
  | y :: l' => if lt y x then y :: insert_sorted x l' else x :: y :: l'
  end.

Fixpoint sorted (l : list A) : list A :=
  match l with
  | [] => []
  | x :: l' => insert_sorted x (sorted l')
  end.

(** No element is strictly smaller than one in front of it. *)
Definition ascending (l : list A) : Prop :=
  StronglySorted (fun x y => lt y x = false) l.
End Sorting.

(** [Series.unique()]: the distinct values in order of first appearance. *)
Fixpoint unique (l : list Z) : list Z :=
  match l with
  | [] => []
  | x :: l' => x :: List.filter (fun y => negb (y =? x)%Z) (unique l')
  end.

(** ** [load_painting_data] *)

(** A row of the table [pd.read_csv] returns, restricted to the required
    columns.  A cell is [None] when it is not-a-number; a column that is
    absent from the file is a column of such cells, since the code gives a
    created column the value it fills a missing cell with. *)
Module Csv.
Record t : Type := Row {
  year : option Q;
  latitude : option Q;
  longitude : option Q;
  red_pct : option Q;
  green_pct : option Q;
  blue_pct : option Q
}.
End Csv.

(** [Series.fillna(value)], on one cell. *)
Definition fillna (value : Q) (cell : option Q) : Q :=
  match cell with
  | Some x => x
  | None => value
  end.

(** [Series.max()]: not-a-number on an empty column. *)
Definition column_max (xs : list Q) : pyfloat :=
  match xs with
  | [] => NaN
  | x :: rest => Fin (fold_left Py.max rest x)
  end.

(** [m > 1.0]. *)
Definition above_one (m : pyfloat) : bool :=
  match m with
  | NaN => false
  | Fin q => Py.ltb 1 q
  end.

(** [Series.clip(lower, upper)], on one cell. *)
Definition clip (lower upper x : Q) : Q :=
  if Py.ltb x lower then lower else if Py.ltb upper x then upper else x.

(** Lines 122 to 129 for one colour column: divide the whole column by 255
    when its maximum exceeds 1, then clip every cell to [0, 1]. *)
Definition normalize_column (xs : list Q) : list Q :=
  let scaled :=
    if above_one (column_max xs) then List.map (fun x => x / 255)%Q xs else xs in
  List.map (clip 0 1) scaled.

(** The same for the cell of one row, given the whole column. *)
Definition normalize_cell (column : list Q) (x : Q) : Q :=
  clip 0 1 (if above_one (column_max column) then x / 255 else x)%Q.

(** Lines 101 to 136: what becomes of the table one encoding has read. *)
Definition sanitize (data : list Csv.t) : list Painting.t :=
  let red := List.map (fun row => fillna 0.33 (Csv.red_pct row)) data in
  let green := List.map (fun row => fillna 0.33 (Csv.green_pct row)) data in
  let blue := List.map (fun row => fillna 0.33 (Csv.blue_pct row)) data in
  List.map
    (fun row =>
       let latitude := fillna 0.0 (Csv.latitude row) in
       let longitude := fillna 0.0 (Csv.longitude row) in
       {| Painting.year := Py.trunc (fillna 2000 (Csv.year row));
          Painting.latitude := latitude;
          Painting.longitude := longitude;
          Painting.red_pct := normalize_cell red (fillna 0.33 (Csv.red_pct row));
          Painting.green_pct := normalize_cell green (fillna 0.33 (Csv.green_pct row));
          Painting.blue_pct := normalize_cell blue (fillna 0.33 (Csv.blue_pct row));
          Painting.geometry := Point longitude latitude |})
    data.

(** Paris, Berlin, Rome, London and Madrid, as latitude and longitude. *)
Definition cities : list (Q * Q) :=
  [(48.8566, 2.3522); (52.5200, 13.4050); (41.9028, 12.4964);
   (51.5074, -0.1278); (40.4168, -3.7038)]%Q.

(** Lines 150 to 203: the generated table, five cities for each fifth year
    from 1900 to 2000.  [random n] is the value of the [n]-th call of
    [np.random.random()]. *)
Definition sample_data (random : nat -> Q) : list Painting.t :=
  flat_map
    (fun k =>
       List.map
         (fun '(j, (latitude, longitude)) =>
            {| Painting.year := 1900 + 5 * Z.of_nat k;
               Painting.latitude := latitude;
               Painting.longitude := longitude;
               Painting.red_pct := random (15 * k + 3 * j)%nat;
               Painting.green_pct := random (15 * k + 3 * j + 1)%nat;
               Painting.blue_pct := random (15 * k + 3 * j + 2)%nat;
               Painting.geometry := Point longitude latitude |})
         (zip (seq 0 (length cities)) cities))
    (seq 0 21).

(** The loop over the encodings: the first attempt that neither fails to
    decode nor raises later on. *)
Fixpoint first_readable (attempts : list (option (list Csv.t))) : option (list Csv.t) :=
  match attempts with
  | [] => None
  | Some data :: _ => Some data
  | None :: rest => first_readable rest
  end.

(** [attempts] holds, for each encoding in turn, the table [pd.read_csv]
    returns, or [None] when that attempt raises.  When every attempt fails
    the function returns the generated table. *)
Definition load_painting_data (attempts : list (option (list Csv.t))) (random : nat -> Q)
  : list Painting.t :=
  match first_readable attempts with
  | Some data => sanitize data
  | None => sample_data random
  end.

(** ** The colour of one country (the body of the loop over countries) *)

Section Interpolation.

(** [country_centroid.distance(painting_point)] is shapely's; on two
    points it does not raise, so the handler around it is never entered. *)
Variable distance : point -> point -> Q.

(** The running sums of lines 245 to 256. *)
Record sums : Type := Sums {
  total_weight : Q;
  r_weighted_sum : Q;
  g_weighted_sum : Q;
  b_weighted_sum : Q
}.

Definition no_sums : sums := Sums 0 0 0 0.

(** One turn of the loop over the nearest paintings; [None] is the
    [ZeroDivisionError] of [1 / (distance + 0.001)]. *)
Definition add_painting (acc : sums) (dp : Q * Painting.t) : option sums :=
  let '(d, painting) := dp in
  if Py.eqb (d + 0.001) 0 then None
  else
    let weight := (1 / (d + 0.001))%Q in
    Some {| total_weight := (total_weight acc + weight)%Q;
            r_weighted_sum := (r_weighted_sum acc + Painting.red_pct painting * weight)%Q;
            g_weighted_sum := (g_weighted_sum acc + Painting.green_pct painting * weight)%Q;
            b_weighted_sum := (b_weighted_sum acc + Painting.blue_pct painting * weight)%Q |}.

Fixpoint weighted_sums (acc : sums) (nearest_paintings : list (Q * Painting.t)) : option sums :=
  match nearest_paintings with
  | [] => Some acc
  | dp :: rest =>
      match add_painting acc dp with
      | Some acc' => weighted_sums acc' rest
      | None => None
      end
  end.

(** [min(max(s / total_weight if total_weight > 0 else 0.5, 0.0), 1.0)]. *)
Definition clamped_average (s total : Q) : Q :=
  Py.min (Py.max (if Py.ltb 0 total then s / total else 0.5)%Q 0) 1.

(** Lines 264 to 273: the hexadecimal colour, or the gray when a channel
    is not-a-number or out of range, or when [rgb2hex] raises. *)
Definition checked_hex (r_avg g_avg b_avg : pyfloat) : string :=
  if negb (isnan r_avg) && negb (isnan g_avg) && negb (isnan b_avg)
     && between 0 1 r_avg && between 0 1 g_avg && between 0 1 b_avg
  then
    match r_avg, g_avg, b_avg with
    | Fin r, Fin g, Fin b =>
        match rgb2hex r g b with
        | Some avg_color => avg_color
        | None => default_gray
        end
    | _, _, _ => default_gray
    end
  else default_gray.

(** The pair the inner loop appends for one painting. *)
Definition with_distance (country_centroid : point) (painting : Painting.t) : Q * Painting.t :=
  (distance country_centroid (Painting.geometry painting), painting).

(** The order of [key=lambda x: x[0]]. *)
Definition by_distance (x y : Q * Painting.t) : bool := Py.ltb (fst x) (fst y).

(** [distances] after [distances.sort(key=lambda x: x[0])]. *)
Definition distances (country_centroid : point) (year_data : list Painting.t)
  : list (Q * Painting.t) :=
  sorted by_distance (List.map (with_distance country_centroid) year_data).

(** [distances[:min(5, len(distances))]]. *)
Definition nearest (country_centroid : point) (year_data : list Painting.t)
  : list (Q * Painting.t) :=
  let ds := distances country_centroid year_data in
  firstn (Nat.min 5 (length ds)) ds.

(** How the [try] block of one country ends. *)
Inductive outcome : Type :=
| Colored (avg_color : string)   (* line 276, and the index is recorded *)
| NoPaintings                    (* line 279 *)
| Raised.                        (* line 282 *)

Definition color_country (year_data : list Painting.t) (country : Country.t) : outcome :=
  match Country.centroid country with
  | None => Raised
  | Some country_centroid =>
      match nearest country_centroid year_data with
      | [] => NoPaintings
      | nearest_paintings =>
          match weighted_sums no_sums nearest_paintings with
          | None => Raised
          | Some s =>
              Colored (checked_hex
                         (Fin (clamped_average (r_weighted_sum s) (total_weight s)))
                         (Fin (clamped_average (g_weighted_sum s) (total_weight s)))
                         (Fin (clamped_average (b_weighted_sum s) (total_weight s))))
          end
      end
  end.

(** The colour written into the row, whichever way the block ends. *)
Definition written (o : outcome) : string :=
  match o with
  | Colored avg_color => avg_color
  | NoPaintings | Raised => default_gray
  end.

(** ** The dominant component of a year (lines 288 to 307) *)

Definition Qsum (xs : list Q) : Q := fold_left Qplus xs 0%Q.

(** [Series.mean()]: not-a-number on an empty column. *)
Definition mean (xs : list Q) : pyfloat :=
  match xs with
  | [] => NaN
  | _ => Fin (Qsum xs / inject_Z (Z.of_nat (length xs)))
  end.

Definition dominant_of (r_avg g_avg b_avg : pyfloat) : option string :=
  if negb (isnan r_avg) && negb (isnan g_avg) && negb (isnan b_avg)
  then
    match r_avg, g_avg, b_avg with
    | Fin r, Fin g, Fin b =>
        let max_component := Py.max3 r g b in
        if Py.eqb max_component r then Some "Red"
        else if Py.eqb max_component g then Some "Green"
        else Some "Blue"
    | _, _, _ => None
    end
  else None.

Definition dominant (year_data : list Painting.t) : option string :=
  dominant_of (mean (List.map Painting.red_pct year_data))
              (mean (List.map Painting.green_pct year_data))
              (mean (List.map Painting.blue_pct year_data)).

(** ** The store of data frames *)

(** What a saved figure shows: the plotted rows and the texts drawn on
    the axes. *)
Record figure : Type := Figure {
  shapes : list Country.t;
  texts : list string
}.

(** The state the script acts on: the countries' data frames by
    location, the lines [animate_color_usage] has printed, and the files
    written by [plt.savefig], oldest first. *)
Record world : Type := World {
  frames : gmap nat (list Country.t);
  stdout : list string;
  files : list (string * figure)
}.

Definition set_frames (f : gmap nat (list Country.t)) (w : world) : world :=
  {| frames := f; stdout := stdout w; files := files w |}.

(** Computations on the world; [None] is a reference to a location that
    holds no data frame. *)
Definition M (A : Type) : Type := world -> option (A * world).

#[global] Instance M_ret : MRet M := fun A a w => Some (a, w).
#[global] Instance M_bind : MBind M :=
  fun A B f m w => match m w with Some (a, w') => f a w' | None => None end.

(** [df.copy()]: a new object with the same rows. *)
Definition copy (df : nat) : M nat := fun w =>
  match frames w !! df with
  | Some rows =>
      let l := fresh (dom (frames w)) in
      Some (l, set_frames (<[l := rows]> (frames w)) w)
  | None => None
  end.

(** [df.iterrows()]: the rows with their index, as they are when the
    loop starts. *)
Definition iterrows (df : nat) : M (list (nat * Country.t)) := fun w =>
  match frames w !! df with
  | Some rows => Some (zip (seq 0 (length rows)) rows, w)
  | None => None
  end.

(** [df['color'] = c]. *)
Definition set_color (df : nat) (c : string) : M unit := fun w =>
  match frames w !! df with
  | Some rows => Some (tt, set_frames (<[df := Country.with_color c <$> rows]> (frames w)) w)
  | None => None
  end.

(** [df.at[idx, 'color'] = c], for an index of the frame. *)
Definition set_color_at (df : nat) (idx : nat) (c : string) : M unit := fun w =>
  match frames w !! df with
  | Some rows =>
      Some (tt, set_frames (<[df := alter (Country.with_color c) idx rows]> (frames w)) w)
  | None => None
  end.

Definition print (line : string) : M unit := fun w =>
  Some (tt, {| frames := frames w; stdout := (stdout w ++ [line])%list; files := files w |}).

(** The file that [plt.savefig(path)] leaves behind. *)
Definition savefig (path : string) (fig : figure) : M unit := fun w =>
  Some (tt, {| frames := frames w; stdout := stdout w; files := (files w ++ [(path, fig)])%list |}).

(** The rows of a data frame, for plotting. *)
Definition rows_of (df : nat) : M (list Country.t) := fun w =>
  match frames w !! df with
  | Some rows => Some (rows, w)
  | None => None
  end.

(** A [for] loop that threads the variables it updates. *)
Fixpoint for_each {A S : Type} (items : list A) (s : S) (body : S -> A -> M S) : M S :=
  match items with
  | [] => mret s
  | x :: rest => s' ← body s x; for_each rest s' body
  end.

(** ** [interpolate_colors_to_countries] *)

(** The body of the loop over the countries (lines 223 to 282), for the
    row [idx]; it returns the updated [countries_with_colors]. *)
Definition color_row (colored_europe : nat) (year_data : list Painting.t)
    (countries_with_colors : list nat) (row : nat * Country.t) : M (list nat) :=
  let '(idx, country) := row in
  match color_country year_data country with
  | Colored avg_color =>
      set_color_at colored_europe idx avg_color;;
      mret (countries_with_colors ++ [idx])%list
  | NoPaintings =>
      set_color_at colored_europe idx default_gray;;
      mret countries_with_colors
  | Raised =>
      set_color_at colored_europe idx default_gray;;
      mret countries_with_colors
  end.

(** [painting_data[painting_data['year'] == year]]. *)
Definition of_year (year : Z) (painting_data : list Painting.t) : list Painting.t :=
  List.filter (fun painting => (Painting.year painting =? year)%Z) painting_data.

Definition interpolate_colors_to_countries
    (painting_data : list Painting.t) (europe_gdf : nat) (year : Z)
  : M (nat * option string) :=
  let year_data := of_year year painting_data in
  if (length year_data =? 0)%nat then
    colored_europe ← copy europe_gdf;
    set_color colored_europe default_gray;;
    mret (colored_europe, None)
  else
    colored_europe ← copy europe_gdf;
    rows ← iterrows colored_europe;
    countries_with_colors ← for_each rows [] (color_row colored_europe year_data);
    match countries_with_colors with
    | [] => mret (colored_europe, None)
    | _ => mret (colored_europe, dominant year_data)
    end.

(** ** [animate_color_usage] *)

Definition title : string := "Color Usage in European Paintings (1900-2000)".

Definition year_text (year : Z) : string := "Year: " ++ format_d year.

Definition dominant_text (dominant_color : string) : string :=
  "Dominant: " ++ dominant_color.

Definition frame_path (i : nat) (year : Z) : string :=
  "animation_frames/frame_" ++ format_03d i ++ "_" ++ format_d year ++ ".png".

(** The line printed when a frame has been saved. *)
Definition saved_line (year : Z) : string := "Saved frame for year " ++ format_d year.

(** The texts drawn on the axes of one frame. *)
Definition texts_of (year : Z) (dominant_color : option string) : list string :=
  ([title; year_text year] ++
   match dominant_color with
   | Some d => [dominant_text d]
   | None => []
   end)%list.

(** The line printed by the handler of the loop, for the exception [e]. *)
Definition error_line (year : Z) (e : string) : string :=
  "Error processing frame for year " ++ format_d year ++ ": " ++ e.

(** Drawing the figure and writing it to a path are geopandas' and
    matplotlib's: [draw path fig] is [None] when they succeed and the text
    of the exception when one of them raises (as does the lookup of the
    ['color'] column for a frame that has none). *)
Variable draw : string -> figure -> option string.

(** The body of the loop that saves the frames (lines 368 to 391), for
    the year at position [i]; an exception is printed and the loop goes
    on. *)
Definition save_frame (painting_data : list Painting.t) (europe_gdf : nat)
    (_ : unit) (iy : nat * Z) : M unit :=
  let '(i, year) := iy in
  '(colored_europe, dominant_color) ←
     interpolate_colors_to_countries painting_data europe_gdf year;
  shapes ← rows_of colored_europe;
  let fig := Figure shapes (texts_of year dominant_color) in
  match draw (frame_path i year) fig with
  | None =>
      savefig (frame_path i year) fig;;
      print (saved_line year)
  | Some e => print (error_line year e)
  end.

(** [sorted(painting_data['year'].unique())]. *)
Definition years_of (painting_data : list Painting.t) : list Z :=
  sorted Z.ltb (unique (List.map Painting.year painting_data)).

(** The function up to the saving of the frames; the assembly of the GIF
    after the loop, which the code only attempts, is left out. *)
Definition animate_color_usage (painting_data : list Painting.t) (europe_gdf : nat) : M unit :=
  let years := years_of painting_data in
  match years with
  | [] => print "No years found in the data."
  | _ =>
      print "Creating a series of PNG images...";;
      for_each (zip (seq 0 (length years)) years) tt (save_frame painting_data europe_gdf);;
      print "Individual frames saved in 'animation_frames' directory"
  end.

End Interpolation.

(** ** A distance to run the model with *)

(** The square root of a non-negative rational, cut after nine decimals;
    exact on the squares of integers. *)
Definition sqrt_nine_places (q : Q) : Q :=
  Z.sqrt (Qnum q * 1000000000000000000 / QDen q) # 1000000000.

(** The planar Euclidean distance of two points, through
    [sqrt_nine_places]. *)
Definition planar_distance (a b : point) : Q :=
  let dx := (px a - px b)%Q in
  let dy := (py a - py b)%Q in
  sqrt_nine_places (dx * dx + dy * dy).

(** ** What one call leaves behind *)

Section Denotation.
Variable distance : point -> point -> Q.

(** A row after its turn of the loop. *)
Definition paint (year_data : list Painting.t) (country : Country.t) : Country.t :=
  Country.with_color (written (color_country distance year_data country)) country.

Definition has_color (o : outcome) : bool :=
  match o with
  | Colored _ => true
  | NoPaintings | Raised => false
  end.

(** The indices the loop appends to [countries_with_colors], for rows
    that start at index [idx]. *)
Fixpoint colored_indices (year_data : list Painting.t) (idx : nat) (rows : list Country.t)
  : list nat :=
  match rows with
  | [] => []
  | country :: rest =>
      (if has_color (color_country distance year_data country) then [idx] else [])
        ++ colored_indices year_data (S idx) rest
  end%list.

(** The rows of the returned frame and the returned label. *)
Definition frame_of (painting_data : list Painting.t) (year : Z) (regions : list Country.t)
  : list Country.t * option string :=
  let year_data := of_year year painting_data in
  match year_data with
  | [] => (Country.with_color default_gray <$> regions, None)
  | _ =>
      (paint year_data <$> regions,
       match colored_indices year_data 0 regions with
       | [] => None
       | _ => dominant year_data
       end)
  end.

(** The file the driver writes for the year at position [i]. *)
Definition saved_frame (painting_data : list Painting.t) (regions : list Country.t)
    (iy : nat * Z) : string * figure :=
  let '(i, year) := iy in
  (frame_path i year,
   Figure (fst (frame_of painting_data year regions))
          (texts_of year (snd (frame_of painting_data year regions)))).

(** A call returns the frame [frame] with the label [dominant_color]:
    it ends normally, and the location it returns holds [frame]. *)
Definition returns_frame (r : option ((nat * option string) * world))
    (frame : list Country.t) (dominant_color : option string) : Prop :=
  exists colored_europe w',
    r = Some ((colored_europe, dominant_color), w') /\
    frames w' !! colored_europe = Some frame.

End Denotation.

(** Two rows with the same name and geometry, whatever their colour. *)
Definition same_geometry (c c' : Country.t) : Prop :=
  Country.NAME c = Country.NAME c' /\ Country.centroid c = Country.centroid c'.

(** ** Tables that are already on the scale of 0 to 1 *)

(** A cell of a colour column that is missing or lies in [0, 1]. *)
Definition unit_or_missing (cell : option Q) : Prop :=
  match cell with
  | Some x => (0 <= x <= 1)%Q
  | None => True
  end.

(** A row whose three colour cells are such. *)
Definition on_unit_scale (row : Csv.t) : Prop :=
  unit_or_missing (Csv.red_pct row) /\
  unit_or_missing (Csv.green_pct row) /\
  unit_or_missing (Csv.blue_pct row).

(** ** How one turn of the saving loop ends *)

Section Turn.
Variable distance : point -> point -> Q.
Variable draw : string -> figure -> option string.
Variable painting_data : list Painting.t.
Variable regions : list Country.t.

(** What drawing and saving the frame of the year at position [i] ends
    with: [None], or the text of the exception. *)
Definition drawing_of (iy : nat * Z) : option string :=
  draw (frame_path (fst iy) (snd iy)) (snd (saved_frame distance painting_data regions iy)).

(** The line the turn prints. *)
Definition line_of (iy : nat * Z) : string :=
  match drawing_of iy with
  | None => saved_line (snd iy)
  | Some e => error_line (snd iy) e
  end.

(** The file the turn writes, if any. *)
Definition file_of (iy : nat * Z) : list (string * figure) :=
  match drawing_of iy with
  | None => [saved_frame distance painting_data regions iy]
  | Some _ => []
  end.

End Turn.

(** ** The weighting the specification describes *)

Module Idw.

(** The small constant added to every distance. *)
Definition epsilon : Q := 0.001.

(** The weight of a sample at distance [d]. *)
Definition weight (d : Q) : Q := (1 / (d + epsilon))%Q.

Fixpoint total (selected : list (Q * Painting.t)) : Q :=
  match selected with
  | [] => 0
  | (d, _) :: rest => weight d + total rest
  end%Q.

Fixpoint weighted (channel : Painting.t -> Q) (selected : list (Q * Painting.t)) : Q :=
  match selected with
  | [] => 0
  | (d, painting) :: rest => channel painting * weight d + weighted channel rest
  end%Q.

(** The weighted average of one channel over the selected samples. *)
Definition average (channel : Painting.t -> Q) (selected : list (Q * Painting.t)) : Q :=
  (weighted channel selected / total selected)%Q.

(** A value clamped to [0, 1]. *)
Definition clamp (x : Q) : Q :=
  if Py.ltb x 0 then 0%Q else if Py.ltb 1 x then 1%Q else x.

(** Two hexadecimal digits for a channel in [0, 1]. *)
Definition hex2 (x : Q) : string := format_02x (Py.round (x * 255)).

(** The colour string of the clamped weighted averages. *)
Definition color (selected : list (Q * Painting.t)) : string :=
  "#" ++ hex2 (clamp (average Painting.red_pct selected))
      ++ hex2 (clamp (average Painting.green_pct selected))
      ++ hex2 (clamp (average Painting.blue_pct selected)).

End Idw.

(** ** [create_simple_europe_map] and [load_europe_map] *)

(** The ring of [Polygon([(-10, 35), (40, 35), (40, 75), (-10, 75), (-10, 35)])]. *)
Definition europe_outline : list point :=
  [Point (-10) 35; Point 40 35; Point 40 75; Point (-10) 75; Point (-10) 35]%Q.

(** The sums of the area centroid over the edges of a closed ring: twice the
    signed area, and the two sums that divided by six times the area give
    the coordinates of the centroid. *)
Fixpoint ring_sums (ring : list point) : Q * Q * Q :=
  match ring with
  | p :: (q :: _) as rest =>
      let cross := (px p * py q - px q * py p)%Q in
      let '(a2, sx, sy) := ring_sums rest in
      (cross + a2, (px p + px q) * cross + sx, (py p + py q) * cross + sy)%Q
  | _ => (0, 0, 0)%Q
  end.

(** [polygon.centroid] for a polygon without holes whose ring encloses an
    area, in lowest terms; a ring without area is not covered and gives
    [None]. *)
Definition polygon_centroid (ring : list point) : option point :=
  let '(a2, sx, sy) := ring_sums ring in
  if Py.eqb a2 0 then None
  else Some (Point (Qred (sx / (3 * a2))) (Qred (sy / (3 * a2)))).

(** What a function prints, oldest line first, next to what it returns. *)
Definition printed (A : Type) : Type := list string * A.

(** Lines 78 to 88: one row named [Europe] whose geometry is the outline;
    the frame has no ['color'] column yet. *)
Definition create_simple_europe_map : printed (list Country.t) :=
  (["Creating simplified Europe map as fallback..."],
   [ {| Country.NAME := "Europe";
        Country.centroid := polygon_centroid europe_outline;
        Country.color := None |} ]).

Definition potential_paths : list string :=
  ["ne_50m_admin_0_countries.shp";
   "./ne_50m_admin_0_countries/ne_50m_admin_0_countries.shp";
   "../ne_50m_admin_0_countries.shp"].

(** The [url] of line 51. *)
Definition natural_earth_url : string :=
  "https://naturalearth.s3.amazonaws.com/50m_cultural/ne_50m_admin_0_countries.zip".

Definition european_countries : list string :=
  ["Albania"; "Andorra"; "Austria"; "Belarus"; "Belgium";
   "Bosnia and Herzegovina"; "Bulgaria"; "Croatia"; "Czech Republic";
   "Denmark"; "Estonia"; "Finland"; "France"; "Germany"; "Greece";
   "Hungary"; "Iceland"; "Ireland"; "Italy"; "Latvia"; "Lithuania";
   "Luxembourg"; "Malta"; "Moldova"; "Monaco"; "Montenegro";
   "Netherlands"; "North Macedonia"; "Norway"; "Poland"; "Portugal";
   "Romania"; "Russia"; "San Marino"; "Serbia"; "Slovakia"; "Slovenia";
   "Spain"; "Sweden"; "Switzerland"; "Ukraine"; "United Kingdom";
   "Vatican City"].

(** [name in names]. *)
Definition isin (names : list string) (name : string) : bool :=
  existsb (String.eqb name) names.

(** [europe[europe['NAME'].isin(european_countries)]]: the rows with a
    listed name, in the order of the file.  (pandas keeps the labels of the
    rows it selects; rows are addressed by position here, which names the
    same rows.) *)
Definition only_european (europe : list Country.t) : list Country.t :=
  List.filter (fun row => isin european_countries (Country.NAME row)) europe.

Section EuropeMap.

(** [os.path.exists]. *)
Variable path_exists : string -> bool.

(** [gpd.read_file(source)] followed by the lookup of the ['NAME'] column,
    which stand in one [try] block with nothing printed in between: the
    rows, or the text of the exception one of the two raises. *)
Variable read_file : string -> string + list Country.t.

(** The loop over [potential_paths] stops at the first path that exists. *)
Fixpoint first_existing (paths : list string) : option string :=
  match paths with
  | [] => None
  | path :: rest => if path_exists path then Some path else first_existing rest
  end.

(** Lines 18 to 76.  The statements behind the inner [try] (lines 71 to 73)
    are never reached: both of its branches return. *)
Definition load_europe_map : printed (list Country.t) :=
  match first_existing potential_paths with
  | Some path =>
      match read_file path with
      | inr europe => (["Found shapefile at: " ++ path], only_european europe)
      | inl e =>
          let '(lines, simple) := create_simple_europe_map in
          ([("Found shapefile at: " ++ path)%string; ("Error loading Europe map: " ++ e)%string] ++ lines,
           simple)%list
      end
  | None =>
      match read_file natural_earth_url with
      | inr europe =>
          (["Attempting to download shapefile from Natural Earth..."], only_european europe)
      | inl download_error =>
          let '(lines, simple) := create_simple_europe_map in
          (["Attempting to download shapefile from Natural Earth...";
            ("Error downloading shapefile: " ++ download_error)%string;
            "Falling back to simplified Europe map..."] ++ lines,
           simple)%list
      end
  end.

End EuropeMap.

(** ** The numbers of the code: binary64 *)

(** The arithmetic of the loop over the nearest paintings, of the means and
    of [rgb2hex] on the floats Python computes with: IEEE 754 binary64,
    rounding to nearest, ties to even.  Infinities and not-a-number are
    values; Python raises only where it divides by zero and where it rounds
    a value that is not finite. *)
Module B64.

Local Open Scope float_scope.

(** [np.isnan]. *)
Definition isnan (x : float) : bool := negb (PrimFloat.eqb x x).

(** The builtin [max(a, b)] and [min(a, b)]. *)
Definition max (a b : float) : float := if PrimFloat.ltb a b then b else a.
Definition min (a b : float) : float := if PrimFloat.ltb b a then b else a.
Definition max3 (a b c : float) : float := max (max a b) c.

(** [lo <= x <= hi]. *)
Definition between (lo hi x : float) : bool := PrimFloat.leb lo x && PrimFloat.leb x hi.

(** The builtin [round(x)]: the nearest integer of the exact value of [x],
    halves to the even neighbour; [None] where Python raises (infinities,
    not-a-number). *)
Definition round (x : float) : option Z :=
  match Prim2SF x with
  | S754_zero _ => Some 0%Z
  | S754_finite s m e =>
      let magnitude :=
        match e with
        | Zneg p =>
            let unit := Z.pow_pos 2 p in
            let q := (Zpos m / unit)%Z in
            let r := (Zpos m mod unit)%Z in
            match (2 * r ?= unit)%Z with
            | Lt => q
            | Gt => (q + 1)%Z
            | Eq => if Z.even q then q else (q + 1)%Z
            end
        | _ => (Zpos m * 2 ^ e)%Z
        end in
      Some (if s then (- magnitude)%Z else magnitude)
  | _ => None
  end.

(** matplotlib's [rgb2hex((r, g, b))]: [ValueError] (here [None]) for a
    channel below 0 or above 1, and where [round] raises. *)
Definition rgb2hex (r g b : float) : option string :=
  if PrimFloat.ltb r 0 || PrimFloat.ltb 1 r || PrimFloat.ltb g 0 || PrimFloat.ltb 1 g
     || PrimFloat.ltb b 0 || PrimFloat.ltb 1 b
  then None
  else
    match round (r * 255), round (g * 255), round (b * 255) with
    | Some r', Some g', Some b' =>
        Some ("#" ++ format_02x r' ++ format_02x g' ++ format_02x b')%string
    | _, _, _ => None
    end.

(** A row of the painting table as the loop reads it. *)
Record painting : Type := Painting {
  red_pct : float;
  green_pct : float;
  blue_pct : float
}.

Record sums : Type := Sums {
  total_weight : float;
  r_weighted_sum : float;
  g_weighted_sum : float;
  b_weighted_sum : float
}.

(** The integers [0] the sums start with behave as [0.0] in every
    addition. *)
Definition no_sums : sums := Sums 0 0 0 0.

(** One turn of the loop of lines 250 to 256; [None] is the
    [ZeroDivisionError] of [1 / (distance + 0.001)]. *)
Definition add_painting (acc : sums) (dp : float * painting) : option sums :=
  let '(d, p) := dp in
  if PrimFloat.eqb (d + 0.001) 0 then None
  else
    let weight := 1 / (d + 0.001) in
    Some {| total_weight := total_weight acc + weight;
            r_weighted_sum := r_weighted_sum acc + red_pct p * weight;
            g_weighted_sum := g_weighted_sum acc + green_pct p * weight;
            b_weighted_sum := b_weighted_sum acc + blue_pct p * weight |}.

Fixpoint weighted_sums (acc : sums) (nearest_paintings : list (float * painting))
  : option sums :=
  match nearest_paintings with
  | [] => Some acc
  | dp :: rest =>
      match add_painting acc dp with
      | Some acc' => weighted_sums acc' rest
      | None => None
      end
  end.

(** [min(max(s / total_weight if total_weight > 0 else 0.5, 0.0), 1.0)]. *)
Definition clamped_average (s total : float) : float :=
  min (max (if PrimFloat.ltb 0 total then s / total else 0.5) 0) 1.

(** Lines 264 to 273. *)
Definition checked_hex (r_avg g_avg b_avg : float) : string :=
  if negb (isnan r_avg) && negb (isnan g_avg) && negb (isnan b_avg)
     && between 0 1 r_avg && between 0 1 g_avg && between 0 1 b_avg
  then
    match rgb2hex r_avg g_avg b_avg with
    | Some avg_color => avg_color
    | None => default_gray
    end
  else default_gray.

(** The order of [key=lambda x: x[0]]. *)
Definition by_distance (x y : float * painting) : bool := PrimFloat.ltb (fst x) (fst y).

(** [distances[:min(5, len(distances))]] after the sort.  [distances]
    holds, for each painting of the year in the order of the table, its
    distance from the centroid; the sort is the stable one as long as no
    distance is not-a-number. *)
Definition nearest (distances : list (float * painting)) : list (float * painting) :=
  let ds := sorted by_distance distances in
  firstn (Nat.min 5 (length ds)) ds.


(** Lines 288 to 307, on the three means. *)
Definition dominant_of (r_avg g_avg b_avg : float) : option string :=
  if negb (isnan r_avg) && negb (isnan g_avg) && negb (isnan b_avg)
  then
    let max_component := max3 r_avg g_avg b_avg in
    if PrimFloat.eqb max_component r_avg then Some "Red"%string
    else if PrimFloat.eqb max_component g_avg then Some "Green"%string
    else Some "Blue"%string
  else None.

Section Label.

(** [Series.mean()] is pandas': which cells it adds first depends on the
    length of the column and on the version of the library. *)
Variable mean : list float -> float.

Definition dominant (year_data : list painting) : option string :=
  dominant_of (mean (List.map red_pct year_data))
              (mean (List.map green_pct year_data))
              (mean (List.map blue_pct year_data)).

(** The label a call returns (lines 210 to 214 and 284 to 309), given the
    paintings of the year and the indices collected in
    [countries_with_colors]. *)
Definition label (year_data : list painting) (countries_with_colors : list nat)
  : option string :=
  match year_data, countries_with_colors with
  | [], _ => None
  | _, [] => None
  | _, _ => dominant year_data
  end.

End Label.


(** Points with binary64 coordinates, and the planar distance as it is
    computed on them: the square root of the sum of the squares. *)
Definition planar_distance (a b : float * float) : float :=
  let dx := fst a - fst b in
  let dy := snd a - snd b in
  PrimFloat.sqrt (dx * dx + dy * dy).


(** The weighted average the specification describes, over the selected
    paintings in the order of the selection. *)
Definition weight (d : float) : float := 1 / (d + 0.001).

Definition total (selected : list (float * painting)) : float :=
  fold_left (fun acc dp => acc + weight (fst dp)) selected 0.

Definition weighted (channel : painting -> float) (selected : list (float * painting))
  : float :=
  fold_left (fun acc dp => acc + channel (snd dp) * weight (fst dp)) selected 0.

Definition average (channel : painting -> float) (selected : list (float * painting))
  : float :=
  weighted channel selected / total selected.

Definition clamp (x : float) : float := min (max x 0) 1.

End B64.

(** ** Concrete inputs *)

Module Example.

(** The scenario of the specification: a centroid at latitude 50 and
    longitude 10, a red painting one unit to the north and a green one
    two units to the north, both of the year 2000. *)
Definition anchor : point := Point 10 50.

Definition red_painting : Painting.t :=
  {| Painting.year := 2000; Painting.latitude := 51; Painting.longitude := 10;
     Painting.red_pct := 1; Painting.green_pct := 0; Painting.blue_pct := 0;
     Painting.geometry := Point 10 51 |}.

Definition green_painting : Painting.t :=
  {| Painting.year := 2000; Painting.latitude := 52; Painting.longitude := 10;
     Painting.red_pct := 0; Painting.green_pct := 1; Painting.blue_pct := 0;
     Painting.geometry := Point 10 52 |}.

(** A gray painting of 1990, at the centroid itself. *)
Definition gray_painting : Painting.t :=
  {| Painting.year := 1990; Painting.latitude := 50; Painting.longitude := 10;
     Painting.red_pct := 0.5; Painting.green_pct := 0.5; Painting.blue_pct := 0.5;
     Painting.geometry := Point 10 50 |}.

(** A painting of 2000 at [lat] degrees of latitude on the meridian of
    the centroid. *)
Definition blue_painting_at (lat : Q) : Painting.t :=
  {| Painting.year := 2000; Painting.latitude := lat; Painting.longitude := 10;
     Painting.red_pct := 0; Painting.green_pct := 0; Painting.blue_pct := 1;
     Painting.geometry := Point 10 lat |}.

Definition paintings : list Painting.t := [green_painting; gray_painting; red_painting].

Definition germany : Country.t :=
  {| Country.NAME := "Germany"; Country.centroid := Some anchor; Country.color := None |}.

(** A row without geometry. *)
Definition atlantis : Country.t :=
  {| Country.NAME := "Atlantis"; Country.centroid := None; Country.color := None |}.

(** A world in which location 0 holds the given countries. *)
Definition world_with (regions : list Country.t) : world :=
  {| frames := {[ 0%nat := regions ]}; stdout := []; files := [] |}.

(** A table as read from a file: one cell on the scale of 0 to 255, one
    missing cell. *)
Definition table : list Csv.t :=
  [ {| Csv.year := Some 2000; Csv.latitude := Some 51; Csv.longitude := Some 10;
       Csv.red_pct := Some 300; Csv.green_pct := Some 0.2; Csv.blue_pct := None |};
    {| Csv.year := Some 1990.5; Csv.latitude := None; Csv.longitude := Some 10;
       Csv.red_pct := Some 51; Csv.green_pct := Some 0.9; Csv.blue_pct := Some 1 |} ]%Q.

Definition countries : list Country.t := [germany; atlantis].

(** Five blue paintings of 2000 at distances 1 to 5 from the centroid,
    and a sixth at distance 10. *)
Definition first_three : list Painting.t :=
  [blue_painting_at 53; blue_painting_at 51; blue_painting_at 55].

Definition last_two : list Painting.t :=
  [blue_painting_at 52; blue_painting_at 54].

Definition far_away : Painting.t := blue_painting_at 60.

(** Drawing that never fails. *)
Definition drawn (path : string) (fig : figure) : option string := None.

(** Drawing that always raises [KeyError('color')]. *)
Definition refused (path : string) (fig : figure) : option string := Some "'color'".

(** A source of draws from [0, 1). *)
Definition draw (n : nat) : Q := Z.of_nat (n mod 7) # 7.

(** A directory tree in which only the third candidate path exists. *)
Definition only_parent_dir (path : string) : bool :=
  String.eqb path "../ne_50m_admin_0_countries.shp".

(** Drawing that fails for the frame of 1990 only. *)
Definition refused_1990 (path : string) (fig : figure) : option string :=
  if String.eqb path "animation_frames/frame_000_1990.png"
  then Some "[Errno 28] No space left on device" else None.

(** A table on the scale of 0 to 1, with one missing cell. *)
Definition unit_table : list Csv.t :=
  [ {| Csv.year := Some 2000; Csv.latitude := Some 51; Csv.longitude := Some 10;
       Csv.red_pct := Some 0.2; Csv.green_pct := None; Csv.blue_pct := Some 1 |};
    {| Csv.year := Some 2000; Csv.latitude := Some 52; Csv.longitude := Some 10;
       Csv.red_pct := Some 0; Csv.green_pct := Some 0.75; Csv.blue_pct := Some 0.5 |} ]%Q.

(** No path exists. *)
Definition no_file (path : string) : bool := false.

(** Nothing can be read: no file is a shapefile and there is no network. *)
Definition unreadable (source : string) : string + list Country.t :=
  inl "not recognized as a supported file format".

(** Only the download gives a table. *)
Definition download_only (source : string) : string + list Country.t :=
  if String.eqb source natural_earth_url then inr [germany; atlantis]
  else inl "not recognized as a supported file format".

End Example.

(** * Properties *)

Local Open Scope list_scope.

(** ** Comparisons, clamping and rounding *)

Module PyFacts.

Lemma ltb_lt (a b : Q) : Py.ltb a b = true <-> (a < b)%Q.
Proof. unfold Py.ltb, Qlt. apply Z.ltb_lt. Qed.

Lemma ltb_ge (a b : Q) : Py.ltb a b = false <-> (b <= a)%Q.
Proof. unfold Py.ltb, Qle. apply Z.ltb_ge. Qed.

Lemma leb_le (a b : Q) : Py.leb a b = true <-> (a <= b)%Q.
Proof. unfold Py.leb, Qle. apply Z.leb_le. Qed.

Lemma eqb_eq (a b : Q) : Py.eqb a b = true <-> (a == b)%Q.
Proof. unfold Py.eqb, Qeq. apply Z.eqb_eq. Qed.

Lemma max_lower (a b : Q) : (a <= Py.max a b)%Q /\ (b <= Py.max a b)%Q.
Proof.
  unfold Py.max. destruct (Py.ltb a b) eqn:E.
  - apply ltb_lt in E. lra.
  - apply ltb_ge in E. lra.
Qed.

Lemma min_upper (a b : Q) : (Py.min a b <= a)%Q /\ (Py.min a b <= b)%Q.
Proof.
  unfold Py.min. destruct (Py.ltb b a) eqn:E.
  - apply ltb_lt in E. lra.
  - apply ltb_ge in E. lra.
Qed.

Lemma min_cases (a b : Q) : Py.min a b = a \/ Py.min a b = b.
Proof. unfold Py.min. destruct (Py.ltb b a); auto. Qed.

(** [min(max(x, 0.0), 1.0)] lands in the unit interval. *)
Lemma clamp_unit (x : Q) : (0 <= Py.min (Py.max x 0) 1 <= 1)%Q.
Proof.
  pose proof (max_lower x 0) as [_ H0].
  pose proof (min_upper (Py.max x 0) 1) as [_ H1].
  split; [| exact H1].
  destruct (min_cases (Py.max x 0) 1) as [-> | ->]; lra.
Qed.

(** Rounding does not leave an interval with integer ends. *)
Lemma round_bounds (x : Q) (lo hi : Z) :
  (inject_Z lo <= x <= inject_Z hi)%Q -> lo <= Py.round x <= hi.
Proof.
  intros [Hlo Hhi].
  pose proof (Qfloor_le x) as Hf. pose proof (Qlt_floor x) as Hc.
  assert (lo <= Qfloor x) as Hl.
  { rewrite <- (Qfloor_Z lo). now apply Qfloor_resp_le. }
  assert (Qfloor x <= hi) as Hh.
  { rewrite <- (Qfloor_Z hi). now apply Qfloor_resp_le. }
  assert (Qfloor x = hi \/ Qfloor x + 1 <= hi) as [Heq | Hlt] by lia.
  - (* the floor is already the upper bound: the fraction is zero *)
    assert (x == inject_Z hi)%Q as Hx by (rewrite Heq in Hf; lra).
    unfold Py.round. rewrite Heq.
    assert (Py.ltb (x - inject_Z hi) 0.5 = true) as ->; [| lia].
    apply ltb_lt. lra.
  - unfold Py.round.
    destruct (Py.ltb _ 0.5); [lia |].
    destruct (Py.ltb 0.5 _); [lia |].
    destruct (Z.even _); lia.
Qed.

End PyFacts.

(** Comparisons of the code, in the context and in the goal, read as
    statements about fractions. *)
Ltac py_compare :=
  repeat match goal with
    | H : Py.ltb _ _ = true |- _ => apply PyFacts.ltb_lt in H
    | H : Py.ltb _ _ = false |- _ => apply PyFacts.ltb_ge in H
    | H : Py.leb _ _ = true |- _ => apply PyFacts.leb_le in H
    | H : Py.eqb _ _ = true |- _ => apply PyFacts.eqb_eq in H
    | |- Py.ltb _ _ = true => apply PyFacts.ltb_lt
    | |- Py.ltb _ _ = false => apply PyFacts.ltb_ge
    | |- Py.leb _ _ = true => apply PyFacts.leb_le
    | |- Py.eqb _ _ = true => apply PyFacts.eqb_eq
    end.

(** One step of a computation on the world: the first bind of the goal. *)
Ltac bind_step := unfold mbind at 1, M_bind at 1.

Example round_half_even :
  Py.round (255 * 0.5) = 128 /\ Py.round 2.5 = 2 /\ Py.round (-0.5) = 0.
Proof. repeat split. Qed.

Example format_02x_170 : format_02x 170 = "aa"%string /\ format_02x 5 = "05"%string.
Proof. split; reflexivity. Qed.

Example format_03d_7 : format_03d 7 = "007"%string /\ format_03d 1234 = "1234"%string.
Proof. split; reflexivity. Qed.

Example rgb2hex_half : rgb2hex 0.5 0.5 0.5 = Some "#808080"%string.
Proof. reflexivity. Qed.

(** ** The loop over the countries *)

Section Frame.
Variable distance : point -> point -> Q.

Lemma set_color_at_run (w : world) (l idx : nat) (c : string)
    (done : list Country.t) (country : Country.t) (rest : list Country.t) :
  frames w !! l = Some (done ++ country :: rest)%list ->
  idx = length done ->
  set_color_at l idx c w =
    Some (tt, set_frames
                (<[l := (done ++ Country.with_color c country :: rest)%list]> (frames w)) w).
Proof.
  intros Hl ->. unfold set_color_at. rewrite Hl.
  rewrite alter_app_r_alt by lia.
  replace (length done - length done)%nat with 0%nat by lia.
  reflexivity.
Qed.

(** The loop, started at any row: it rewrites the remaining rows one by
    one and collects the indices of those that received a colour. *)
Lemma color_rows_run (l : nat) (year_data : list Painting.t) :
  forall (rest done : list Country.t) (cwc : list nat) (w : world),
    frames w !! l = Some (done ++ rest)%list ->
    for_each (zip (seq (length done) (length rest)) rest) cwc
             (color_row distance l year_data) w =
      Some ((cwc ++ colored_indices distance year_data (length done) rest)%list,
            set_frames (<[l := (done ++ (paint distance year_data <$> rest))%list]> (frames w)) w).
Proof.
  induction rest as [| country rest IH]; intros done cwc w Hl.
  - rewrite app_nil_r in Hl. cbn. rewrite !app_nil_r.
    rewrite insert_id by exact Hl.
    destruct w; reflexivity.
  - cbn [length seq zip zip_with for_each colored_indices fmap list_fmap].
    bind_step.
    assert (color_row distance l year_data cwc (length done, country) w =
            Some ((cwc ++ (if has_color (color_country distance year_data country)
                           then [length done] else []))%list,
                  set_frames (<[l := (done ++ paint distance year_data country :: rest)%list]>
                                (frames w)) w)) as ->.
    { unfold color_row, paint.
      destruct (color_country distance year_data country) eqn:E; cbn [has_color written];
        unfold mbind, M_bind;
        rewrite (set_color_at_run w l (length done) _ done country rest Hl eq_refl);
        unfold mret, M_ret; rewrite ?app_nil_r; reflexivity. }
    specialize (IH (done ++ [paint distance year_data country])%list
                   (cwc ++ (if has_color (color_country distance year_data country)
                            then [length done] else []))%list
                   (set_frames (<[l := (done ++ paint distance year_data country :: rest)%list]>
                                  (frames w)) w)).
    rewrite length_app in IH. cbn [length] in IH.
    replace (length done + 1)%nat with (S (length done)) in IH by lia.
    rewrite IH.
    + cbn [frames set_frames]. rewrite insert_insert_eq.
      rewrite <- !app_assoc. cbn [app]. reflexivity.
    + cbn [frames set_frames]. rewrite lookup_insert_eq.
      rewrite <- app_assoc. reflexivity.
Qed.

(** One call, on any world in which [europe_gdf] is a data frame: it
    allocates one new frame, fills it as [frame_of] says and changes
    nothing else. *)
Lemma interpolate_run (painting_data : list Painting.t) (europe_gdf : nat) (year : Z)
    (w : world) (regions : list Country.t) :
  frames w !! europe_gdf = Some regions ->
  interpolate_colors_to_countries distance painting_data europe_gdf year w =
    Some ((fresh (dom (frames w)), snd (frame_of distance painting_data year regions)),
          set_frames (<[fresh (dom (frames w)) :=
                          fst (frame_of distance painting_data year regions)]> (frames w)) w).
Proof.
  intros He.
  set (l := fresh (dom (frames w))).
  assert (frames w !! l = None) as Hfresh.
  { apply not_elem_of_dom. apply is_fresh. }
  unfold interpolate_colors_to_countries, frame_of.
  destruct (of_year year painting_data) as [| p year_data] eqn:Ey.
  - cbn [length Nat.eqb].
    unfold mbind, M_bind, copy. rewrite He. fold l.
    unfold set_color. cbn [frames set_frames]. rewrite lookup_insert_eq.
    rewrite insert_insert_eq. reflexivity.
  - cbn [length Nat.eqb].
    bind_step; unfold copy. rewrite He. fold l.
    bind_step; unfold iterrows.
    cbn [frames set_frames]. rewrite lookup_insert_eq.
    bind_step.
    pose proof (color_rows_run l (p :: year_data) regions [] []
                  (set_frames (<[l := regions]> (frames w)) w)) as Hloop.
    cbn [app length frames set_frames] in Hloop.
    rewrite Hloop by apply lookup_insert_eq.
    rewrite insert_insert_eq. cbn [fst snd].
    destruct (colored_indices distance (p :: year_data) 0 regions); reflexivity.
Qed.

End Frame.

(** ** Sorting *)

Lemma In_firstn {A : Type} (x : A) (n : nat) (l : list A) : In x (firstn n l) -> In x l.
Proof. rewrite <- !list_elem_of_In. apply subseteq_take. Qed.

Lemma In_skipn {A : Type} (x : A) (n : nat) (l : list A) : In x (skipn n l) -> In x l.
Proof. rewrite <- !list_elem_of_In. apply subseteq_drop. Qed.

(** In a sorted list a front part is below the rest. *)
Lemma sorted_firstn_skipn {A : Type} (R : A -> A -> Prop) (l : list A) :
  StronglySorted R l ->
  forall n x y, In x (firstn n l) -> In y (skipn n l) -> R x y.
Proof.
  induction 1 as [| z l Hl IH Hz]; intros n x y Hx Hy.
  - rewrite firstn_nil in Hx. destruct Hx.
  - destruct n as [| n]; [destruct Hx |].
    cbn in Hx, Hy. destruct Hx as [<- | Hx].
    + rewrite List.Forall_forall in Hz. apply Hz. eapply In_skipn, Hy.
    + eapply IH; eassumption.
Qed.

Section SortingFacts.
Context {A : Type} (lt : A -> A -> bool).

Lemma insert_sorted_perm (x : A) (l : list A) : Permutation (insert_sorted lt x l) (x :: l).
Proof.
  induction l as [| y l IH]; cbn; [reflexivity |].
  destruct (lt y x); [| reflexivity].
  rewrite IH. apply perm_swap.
Qed.

Lemma sorted_perm (l : list A) : Permutation (sorted lt l) l.
Proof.
  induction l as [| x l IH]; cbn; [reflexivity |].
  rewrite insert_sorted_perm. now rewrite IH.
Qed.

Lemma sorted_length (l : list A) : length (sorted lt l) = length l.
Proof. apply Permutation_length, sorted_perm. Qed.

(** The two facts about [<] the arguments below rest on; a comparison of
    numbers has both. *)
Hypothesis lt_asym : forall x y, lt x y = true -> lt y x = false.
Hypothesis ge_trans : forall x y z, lt x y = false -> lt y z = false -> lt x z = false.

Lemma insert_sorted_ascending (x : A) (l : list A) :
  ascending lt l -> ascending lt (insert_sorted lt x l).
Proof.
  unfold ascending. induction 1 as [| y l Hl IH Hy]; cbn.
  - repeat constructor.
  - destruct (lt y x) eqn:E.
    + constructor; [exact IH |].
      rewrite (insert_sorted_perm x l). constructor; [now apply lt_asym | exact Hy].
    + constructor; [now constructor |].
      constructor; [exact E |].
      eapply List.Forall_impl; [| exact Hy]. cbn. intros z Hz.
      now apply (ge_trans z y x).
Qed.

Lemma sorted_ascending (l : list A) : ascending lt (sorted lt l).
Proof.
  induction l as [| x l IH]; cbn; [constructor |].
  now apply insert_sorted_ascending.
Qed.

(** Inserting into an ascending list splits it around the new element. *)
Lemma insert_sorted_split (s : A) (l : list A) :
  ascending lt l ->
  exists a b, l = (a ++ b)%list /\ insert_sorted lt s l = (a ++ s :: b)%list /\
              Forall (fun y => lt y s = false) b.
Proof.
  unfold ascending. induction 1 as [| y l Hl IH Hy]; cbn.
  - exists [], []. repeat split; constructor.
  - destruct (lt y s) eqn:E.
    + destruct IH as (a & b & -> & -> & Hb).
      exists (y :: a), b. repeat split; exact Hb.
    + exists [], (y :: l). repeat split. constructor; [exact E |].
      eapply List.Forall_impl; [| exact Hy]. cbn. intros z Hz.
      now apply (ge_trans z y s).
Qed.

(** An element inserted into a list that contains [s], and into the same
    list without [s]: the results differ by [s] alone, at a place where
    everything behind it is no smaller. *)
Lemma insert_sorted_around (s x : A) :
  forall a b : list A,
    Forall (fun y => lt y s = false) b ->
    exists a' b',
      insert_sorted lt x (a ++ b) = (a' ++ b')%list /\
      insert_sorted lt x (a ++ s :: b) = (a' ++ s :: b')%list /\
      Forall (fun y => lt y s = false) b'.
Proof.
  induction a as [| y a IH]; intros b Hb; cbn.
  - destruct (lt s x) eqn:E.
    + exists [], (insert_sorted lt x b). repeat split.
      rewrite (insert_sorted_perm x b). constructor; [now apply lt_asym | exact Hb].
    + exists [x], b. repeat split; [| exact Hb].
      destruct b as [| y b]; cbn; [reflexivity |].
      inversion Hb as [| ? ? Hy _]; subst.
      now rewrite (ge_trans y s x Hy E).
  - destruct (lt y x) eqn:E.
    + destruct (IH b Hb) as (a' & b' & -> & -> & Hb').
      exists (y :: a'), b'. repeat split; exact Hb'.
    + exists (x :: y :: a), b. repeat split; exact Hb.
Qed.

(** Sorting a list with one more element [s], wherever it stands. *)
Lemma sorted_with_extra (s : A) (l1 l2 : list A) :
  exists a b,
    sorted lt (l1 ++ l2) = (a ++ b)%list /\
    sorted lt (l1 ++ s :: l2) = (a ++ s :: b)%list /\
    Forall (fun y => lt y s = false) b.
Proof.
  induction l1 as [| x l1 IH]; cbn.
  - apply insert_sorted_split, sorted_ascending.
  - destruct IH as (a & b & -> & -> & Hb).
    now apply insert_sorted_around.
Qed.

(** The [n] smallest elements do not change when an element that is
    strictly greater than each of them joins the list. *)
Lemma firstn_sorted_extra (n : nat) (s : A) (l1 l2 : list A) :
  (n <= length (l1 ++ l2))%nat ->
  Forall (fun y => lt y s = true) (firstn n (sorted lt (l1 ++ l2))) ->
  firstn n (sorted lt (l1 ++ s :: l2)) = firstn n (sorted lt (l1 ++ l2)).
Proof.
  intros Hn Hfar.
  destruct (sorted_with_extra s l1 l2) as (a & b & Hab & Has & Hb).
  assert (length (a ++ b) = length (l1 ++ l2)) as Hlen.
  { rewrite <- Hab. apply sorted_length. }
  rewrite Has, Hab in *.
  assert (n <= length a)%nat as Hna.
  { destruct (Nat.le_gt_cases n (length a)) as [H | H]; [exact H | exfalso].
    rewrite length_app in Hlen.
    destruct b as [| y b]; [cbn in Hlen; lia |].
    inversion Hb as [| ? ? Hy _]; subst.
    assert ((a ++ y :: b) !! length a = Some y) as Hlook.
    { rewrite lookup_app_r by lia. now rewrite Nat.sub_diag. }
    assert (firstn n (a ++ y :: b) !! length a = Some y) as Hin.
    { change (take n (a ++ y :: b) !! length a = Some y).
      rewrite lookup_take_lt by lia. exact Hlook. }
    rewrite List.Forall_forall in Hfar.
    specialize (Hfar y). rewrite Hfar in Hy; [discriminate |].
    apply list_elem_of_In. eapply list_elem_of_lookup_2. exact Hin. }
  rewrite !firstn_app.
  replace (n - length a)%nat with 0%nat by lia. reflexivity.
Qed.

End SortingFacts.

(** ** Numbers up to equality of fractions *)

Lemma ltb_comp (a a' b b' : Q) : (a == a')%Q -> (b == b')%Q -> Py.ltb a b = Py.ltb a' b'.
Proof.
  intros Ha Hb. apply eq_true_iff_eq. rewrite !PyFacts.ltb_lt. now rewrite Ha, Hb.
Qed.

Lemma leb_comp (a a' b b' : Q) : (a == a')%Q -> (b == b')%Q -> Py.leb a b = Py.leb a' b'.
Proof.
  intros Ha Hb. apply eq_true_iff_eq. rewrite !PyFacts.leb_le. now rewrite Ha, Hb.
Qed.

Lemma round_comp (x y : Q) : (x == y)%Q -> Py.round x = Py.round y.
Proof.
  intros Hxy. unfold Py.round. rewrite (Qfloor_comp x y Hxy).
  rewrite (ltb_comp (x - inject_Z (Qfloor y)) (y - inject_Z (Qfloor y)) 0.5 0.5)
    by (rewrite ?Hxy; reflexivity).
  rewrite (ltb_comp 0.5 0.5 (x - inject_Z (Qfloor y)) (y - inject_Z (Qfloor y)))
    by (rewrite ?Hxy; reflexivity).
  reflexivity.
Qed.

Lemma hex2_comp (x y : Q) : (x == y)%Q -> Idw.hex2 x = Idw.hex2 y.
Proof.
  intros Hxy. unfold Idw.hex2. f_equal. apply round_comp. now rewrite Hxy.
Qed.

(** The code's clamp, [min(max(x, 0.0), 1.0)], is the usual one. *)
Lemma clamp_min_max (x : Q) : Py.min (Py.max x 0) 1 = Idw.clamp x.
Proof.
  unfold Py.min, Py.max, Idw.clamp.
  destruct (Py.ltb x 0); reflexivity.
Qed.

Lemma clamp_comp (x y : Q) : (x == y)%Q -> (Idw.clamp x == Idw.clamp y)%Q.
Proof.
  intros Hxy. unfold Idw.clamp.
  rewrite (ltb_comp x y 0 0 Hxy) by reflexivity.
  rewrite (ltb_comp 1 1 x y) by (trivial; reflexivity).
  destruct (Py.ltb y 0); [reflexivity |].
  destruct (Py.ltb 1 y); [reflexivity | exact Hxy].
Qed.

Lemma idw_clamp_unit (x : Q) : (0 <= Idw.clamp x <= 1)%Q.
Proof. rewrite <- clamp_min_max. apply PyFacts.clamp_unit. Qed.

(** ** Colour strings *)

Lemma format_02x_bytes :
  forallb (fun n => two_hex_digits (format_02x (Z.of_nat n))) (seq 0 256) = true.
Proof. vm_compute. reflexivity. Qed.

Lemma format_02x_byte (n : Z) : 0 <= n <= 255 -> two_hex_digits (format_02x n) = true.
Proof.
  intros Hn. pose proof format_02x_bytes as H.
  rewrite forallb_forall in H. specialize (H (Z.to_nat n)).
  rewrite Z2Nat.id in H by lia. apply H. apply in_seq. lia.
Qed.

Lemma hex2_unit (x : Q) : (0 <= x <= 1)%Q -> two_hex_digits (Idw.hex2 x) = true.
Proof.
  intros Hx. apply format_02x_byte. apply PyFacts.round_bounds.
  change (inject_Z 0) with 0%Q. change (inject_Z 255) with 255%Q. lra.
Qed.

Lemma three_bytes_color (s1 s2 s3 : string) :
  two_hex_digits s1 = true -> two_hex_digits s2 = true -> two_hex_digits s3 = true ->
  is_hex_color ("#" ++ s1 ++ s2 ++ s3)%string = true.
Proof.
  destruct s1 as [| a1 [| a2 [| ? ?]]]; try discriminate.
  destruct s2 as [| b1 [| b2 [| ? ?]]]; try discriminate.
  destruct s3 as [| c1 [| c2 [| ? ?]]]; try discriminate.
  cbn [two_hex_digits]. intros H1 H2 H3.
  apply andb_prop in H1 as [H1 H1']. apply andb_prop in H2 as [H2 H2'].
  apply andb_prop in H3 as [H3 H3'].
  cbv -[is_hex_digit]. now rewrite H1, H1', H2, H2', H3, H3'.
Qed.

Lemma rgb2hex_unit (r g b : Q) :
  (0 <= r <= 1)%Q -> (0 <= g <= 1)%Q -> (0 <= b <= 1)%Q ->
  rgb2hex r g b = Some ("#" ++ Idw.hex2 r ++ Idw.hex2 g ++ Idw.hex2 b)%string.
Proof.
  intros [Hr0 Hr1] [Hg0 Hg1] [Hb0 Hb1]. unfold rgb2hex.
  apply PyFacts.leb_le in Hr0, Hr1, Hg0, Hg1, Hb0, Hb1.
  rewrite Hr0, Hr1, Hg0, Hg1, Hb0, Hb1. reflexivity.
Qed.

(** The guarded conversion never leaves the set of colour strings. *)
Lemma checked_hex_color (r g b : pyfloat) : is_hex_color (checked_hex r g b) = true.
Proof.
  unfold checked_hex.
  destruct (_ && _) eqn:Hguard; [| reflexivity].
  destruct r as [| r], g as [| g], b as [| b]; try reflexivity.
  cbn in Hguard.
  repeat match goal with
         | H : _ && _ = true |- _ => apply andb_prop in H as [? ?]
         end.
  rewrite rgb2hex_unit by (split; now apply PyFacts.leb_le).
  apply three_bytes_color; apply hex2_unit; split; now apply PyFacts.leb_le.
Qed.

(** On channels in the unit interval the guard passes and the colour is
    the hexadecimal one. *)
Lemma checked_hex_unit (r g b : Q) :
  (0 <= r <= 1)%Q -> (0 <= g <= 1)%Q -> (0 <= b <= 1)%Q ->
  checked_hex (Fin r) (Fin g) (Fin b) =
    ("#" ++ Idw.hex2 r ++ Idw.hex2 g ++ Idw.hex2 b)%string.
Proof.
  intros Hr Hg Hb. unfold checked_hex. rewrite (rgb2hex_unit r g b Hr Hg Hb).
  destruct Hr as [Hr0 Hr1], Hg as [Hg0 Hg1], Hb as [Hb0 Hb1].
  apply PyFacts.leb_le in Hr0, Hr1, Hg0, Hg1, Hb0, Hb1.
  cbn. now rewrite Hr0, Hr1, Hg0, Hg1, Hb0, Hb1.
Qed.

(** A channel that is not-a-number or outside the unit interval yields the
    gray. *)
Lemma checked_hex_invalid (r g b : pyfloat) :
  (isnan r || isnan g || isnan b
   || negb (between 0 1 r) || negb (between 0 1 g) || negb (between 0 1 b)) = true ->
  checked_hex r g b = default_gray.
Proof.
  unfold checked_hex. intros H.
  destruct (isnan r), (isnan g), (isnan b),
    (between 0 1 r), (between 0 1 g), (between 0 1 b); try discriminate; reflexivity.
Qed.

(** ** The weighted sums *)

Lemma weight_pos (d : Q) : (0 <= d)%Q -> (0 < Idw.weight d)%Q.
Proof.
  intros Hd. unfold Idw.weight, Idw.epsilon.
  apply Qlt_shift_div_l; lra.
Qed.

Lemma total_pos (selected : list (Q * Painting.t)) :
  selected <> [] ->
  Forall (fun dp => (0 <= fst dp)%Q) selected ->
  (0 < Idw.total selected)%Q.
Proof.
  intros Hne Hall. destruct selected as [| [d p] rest]; [congruence |]. clear Hne.
  revert d p Hall. induction rest as [| [d' p'] rest IH]; intros d p Hall.
  - inversion Hall as [| ? ? Hd _]; subst. cbn in *.
    pose proof (weight_pos d Hd). lra.
  - inversion Hall as [| ? ? Hd Hrest]; subst.
    specialize (IH d' p' Hrest).
    pose proof (weight_pos d Hd).
    change (Idw.total ((d, p) :: (d', p') :: rest))
      with (Idw.weight d + Idw.total ((d', p') :: rest))%Q.
    lra.
Qed.

(** With distances that are not negative the division never fails, and the
    running sums are the sums of the weighting formula. *)
Lemma weighted_sums_spec (selected : list (Q * Painting.t)) :
  Forall (fun dp => (0 <= fst dp)%Q) selected ->
  forall acc : sums,
  exists s,
    weighted_sums acc selected = Some s /\
    (total_weight s == total_weight acc + Idw.total selected)%Q /\
    (r_weighted_sum s == r_weighted_sum acc + Idw.weighted Painting.red_pct selected)%Q /\
    (g_weighted_sum s == g_weighted_sum acc + Idw.weighted Painting.green_pct selected)%Q /\
    (b_weighted_sum s == b_weighted_sum acc + Idw.weighted Painting.blue_pct selected)%Q.
Proof.
  induction 1 as [| [d p] rest Hd _ IH]; intros acc.
  - exists acc. cbn. repeat split; lra.
  - cbn in Hd. cbn [weighted_sums add_painting].
    destruct (Py.eqb (d + 0.001) 0) eqn:E.
    { apply PyFacts.eqb_eq in E. lra. }
    match goal with
    | |- context [weighted_sums ?acc' rest] => destruct (IH acc') as (s & Hs & Ht & Hr & Hg & Hb)
    end.
    exists s. split; [exact Hs |].
    cbn [total_weight r_weighted_sum g_weighted_sum b_weighted_sum] in Ht, Hr, Hg, Hb.
    cbn [Idw.total Idw.weighted]. unfold Idw.weight, Idw.epsilon.
    repeat split; lra.
Qed.

(** ** The nearest paintings *)

Section Nearest.
Variable distance : point -> point -> Q.

Lemma by_distance_asym (x y : Q * Painting.t) :
  by_distance x y = true -> by_distance y x = false.
Proof. unfold by_distance. intros H. py_compare. lra. Qed.

Lemma by_distance_ge_trans (x y z : Q * Painting.t) :
  by_distance x y = false -> by_distance y z = false -> by_distance x z = false.
Proof. unfold by_distance. intros H1 H2. py_compare. lra. Qed.

Lemma distances_unfold (a : point) (year_data : list Painting.t) :
  distances distance a year_data =
  sorted by_distance (List.map (with_distance distance a) year_data).
Proof. reflexivity. Qed.

Lemma distances_length (a : point) (year_data : list Painting.t) :
  length (distances distance a year_data) = length year_data.
Proof. rewrite distances_unfold, sorted_length. apply length_map. Qed.

(** Every selected pair is a painting of the year with its distance. *)
Lemma nearest_elem (a : point) (year_data : list Painting.t) (dp : Q * Painting.t) :
  In dp (nearest distance a year_data) ->
  In (snd dp) year_data /\ fst dp = distance a (Painting.geometry (snd dp)).
Proof.
  unfold nearest. intros H. apply In_firstn in H.
  rewrite distances_unfold in H.
  apply (Permutation_in _ (sorted_perm by_distance _)) in H.
  apply in_map_iff in H as (p & <- & Hp). split; [exact Hp | reflexivity].
Qed.

Lemma nearest_length (a : point) (year_data : list Painting.t) :
  length (nearest distance a year_data) = Nat.min 5 (length year_data).
Proof.
  unfold nearest. rewrite length_firstn, distances_length. lia.
Qed.

Lemma nearest_nonempty (a : point) (year_data : list Painting.t) :
  year_data <> [] -> nearest distance a year_data <> [].
Proof.
  intros Hne Hnil. apply (f_equal (@length _)) in Hnil.
  rewrite nearest_length in Hnil. destruct year_data; [congruence | cbn in Hnil; lia].
Qed.

(** They are in ascending order of distance. *)
Lemma nearest_ascending (a : point) (year_data : list Painting.t) :
  StronglySorted (fun x y => (fst x <= fst y)%Q) (nearest distance a year_data).
Proof.
  unfold nearest.
  pose proof (sorted_ascending by_distance by_distance_asym by_distance_ge_trans
                (List.map (with_distance distance a) year_data)) as Hs.
  rewrite <- distances_unfold in Hs. unfold ascending in Hs.
  generalize (Nat.min 5 (length (distances distance a year_data))).
  induction Hs as [| x l Hl IH Hx]; intros n.
  - rewrite firstn_nil. constructor.
  - destruct n as [| n]; cbn; [constructor |].
    constructor; [apply IH |].
    apply List.Forall_forall. intros y Hy. apply In_firstn in Hy.
    rewrite List.Forall_forall in Hx. specialize (Hx y Hy).
    unfold by_distance in Hx. now apply PyFacts.ltb_ge in Hx.
Qed.

(** Nothing that was left out is nearer than a selected painting. *)
Lemma nearest_are_nearest (a : point) (year_data : list Painting.t) :
  exists left_out,
    Permutation (List.map (with_distance distance a) year_data)
                (nearest distance a year_data ++ left_out) /\
    forall x y, In x (nearest distance a year_data) -> In y left_out -> (fst x <= fst y)%Q.
Proof.
  pose proof (sorted_ascending by_distance by_distance_asym by_distance_ge_trans
                (List.map (with_distance distance a) year_data)) as Hs.
  pose proof (sorted_perm by_distance (List.map (with_distance distance a) year_data)) as Hp.
  rewrite <- distances_unfold in Hs, Hp. unfold nearest, ascending in *.
  set (n := Nat.min 5 _). clearbody n.
  exists (skipn n (distances distance a year_data)).
  rewrite firstn_skipn. split; [now symmetry |].
  intros x y Hx Hy.
  pose proof (sorted_firstn_skipn _ _ Hs n x y Hx Hy) as H.
  unfold by_distance in H. now apply PyFacts.ltb_ge in H.
Qed.

End Nearest.

(** ** The colour of one country *)

Section CountryColor.
Variable distance : point -> point -> Q.
Hypothesis distance_nonneg : forall a b, (0 <= distance a b)%Q.

Lemma nearest_nonneg (a : point) (year_data : list Painting.t) :
  Forall (fun dp => (0 <= fst dp)%Q) (nearest distance a year_data).
Proof.
  apply List.Forall_forall. intros dp Hdp.
  apply nearest_elem in Hdp as [_ ->]. apply distance_nonneg.
Qed.

(** The sums the loop ends with, for a country whose centroid is [a]. *)
Lemma nearest_sums (a : point) (year_data : list Painting.t) :
  year_data <> [] ->
  let selected := nearest distance a year_data in
  exists s,
    weighted_sums no_sums selected = Some s /\
    (0 < total_weight s)%Q /\
    (total_weight s == Idw.total selected)%Q /\
    (r_weighted_sum s / total_weight s == Idw.average Painting.red_pct selected)%Q /\
    (g_weighted_sum s / total_weight s == Idw.average Painting.green_pct selected)%Q /\
    (b_weighted_sum s / total_weight s == Idw.average Painting.blue_pct selected)%Q.
Proof.
  intros Hne selected.
  destruct (weighted_sums_spec selected (nearest_nonneg a year_data) no_sums)
    as (s & Hs & Ht & Hr & Hg & Hb).
  cbn [no_sums total_weight r_weighted_sum g_weighted_sum b_weighted_sum] in Ht, Hr, Hg, Hb.
  pose proof (total_pos selected (nearest_nonempty distance a year_data Hne)
                (nearest_nonneg a year_data)) as Hpos.
  exists s. split; [exact Hs |].
  assert (total_weight s == Idw.total selected)%Q as Ht' by lra.
  split; [lra |]. split; [exact Ht' |].
  unfold Idw.average.
  repeat split; rewrite Ht'; apply Qdiv_comp; lra.
Qed.

(** With a total weight above zero the average is the clamped quotient,
    not the fallback value. *)
Lemma clamped_average_quotient (s total : Q) :
  (0 < total)%Q -> clamped_average s total = Idw.clamp (s / total).
Proof.
  intros Hpos. unfold clamped_average.
  apply PyFacts.ltb_lt in Hpos. rewrite Hpos. apply clamp_min_max.
Qed.

Lemma color_country_idw (year_data : list Painting.t) (country : Country.t) (a : point) :
  Country.centroid country = Some a ->
  year_data <> [] ->
  color_country distance year_data country =
    Colored (Idw.color (nearest distance a year_data)).
Proof.
  intros Ha Hne. unfold color_country. rewrite Ha.
  pose proof (nearest_nonempty distance a year_data Hne) as Hsel.
  destruct (nearest_sums a year_data Hne) as (s & Hs & Hpos & _ & Hr & Hg & Hb).
  destruct (nearest distance a year_data) as [| dp rest] eqn:E; [congruence |].
  rewrite Hs. f_equal.
  rewrite !clamped_average_quotient by exact Hpos.
  rewrite checked_hex_unit by apply idw_clamp_unit.
  unfold Idw.color.
  rewrite (hex2_comp _ _ (clamp_comp _ _ Hr)).
  rewrite (hex2_comp _ _ (clamp_comp _ _ Hg)).
  rewrite (hex2_comp _ _ (clamp_comp _ _ Hb)).
  reflexivity.
Qed.

(** A country without geometry ends in the handler; every other one
    receives a colour as soon as the year has a painting. *)
Lemma has_color_iff (year_data : list Painting.t) (country : Country.t) :
  year_data <> [] ->
  has_color (color_country distance year_data country) = true <->
  Country.centroid country <> None.
Proof.
  intros Hne. destruct (Country.centroid country) as [a |] eqn:Ha.
  - rewrite (color_country_idw year_data country a Ha Hne). cbn. split; congruence.
  - unfold color_country. rewrite Ha. cbn. split; congruence.
Qed.

End CountryColor.

(** ** The returned frame *)

Lemma of_year_nil (year : Z) (painting_data : list Painting.t) :
  (forall painting, In painting painting_data -> Painting.year painting <> year) <->
  of_year year painting_data = [].
Proof.
  unfold of_year. split.
  - intros H. induction painting_data as [| p l IH]; [reflexivity |]. cbn.
    destruct (Z.eqb_spec (Painting.year p) year) as [E | _].
    + exfalso. apply (H p); [now left | exact E].
    + apply IH. intros q Hq. apply H. now right.
  - intros H p Hp E.
    assert (In p (List.filter (fun painting => (Painting.year painting =? year)%Z) painting_data))
      as Hin.
    { apply filter_In. split; [exact Hp | now apply Z.eqb_eq]. }
    rewrite H in Hin. destruct Hin.
Qed.

Lemma of_year_cons (year : Z) (painting_data : list Painting.t) :
  (exists painting, In painting painting_data /\ Painting.year painting = year) ->
  of_year year painting_data <> [].
Proof.
  intros (p & Hp & E) Hnil.
  pose proof (proj2 (of_year_nil year painting_data) Hnil) as H. now apply (H p).
Qed.

Lemma colored_indices_nil (distance : point -> point -> Q)
    (year_data : list Painting.t) (regions : list Country.t) :
  forall idx,
    colored_indices distance year_data idx regions = [] <->
    forall country, In country regions ->
                    has_color (color_country distance year_data country) = false.
Proof.
  induction regions as [| c l IH]; intros idx; cbn.
  - split; [intros _ ? [] | reflexivity].
  - destruct (has_color (color_country distance year_data c)) eqn:E; cbn.
    + split; [discriminate |]. intros H. specialize (H c (or_introl eq_refl)). congruence.
    + rewrite IH. split.
      * intros H country [<- | Hin]; [exact E | now apply H].
      * intros H country Hin. apply H. now right.
Qed.

(** The call returns, and what it returns is [frame_of]. *)
Lemma interpolate_returns (distance : point -> point -> Q)
    (painting_data : list Painting.t) (europe_gdf : nat) (year : Z)
    (w : world) (regions : list Country.t) :
  frames w !! europe_gdf = Some regions ->
  returns_frame (interpolate_colors_to_countries distance painting_data europe_gdf year w)
    (fst (frame_of distance painting_data year regions))
    (snd (frame_of distance painting_data year regions)).
Proof.
  intros He. rewrite (interpolate_run distance painting_data europe_gdf year w regions He).
  eexists _, _. split; [reflexivity |]. cbn [frames set_frames]. apply lookup_insert_eq.
Qed.

(** ** Every row is written *)

Lemma written_color (distance : point -> point -> Q)
    (year_data : list Painting.t) (country : Country.t) :
  is_hex_color (written (color_country distance year_data country)) = true.
Proof.
  unfold color_country.
  destruct (Country.centroid country) as [a |]; [| reflexivity].
  destruct (nearest distance a year_data) as [| dp rest]; [reflexivity |].
  destruct (weighted_sums no_sums (dp :: rest)); [| reflexivity].
  apply checked_hex_color.
Qed.

(** ** The scenario with two samples *)

(** Two paintings of the year, at distances 1 and 2 from the centroid, one
    pure red and one pure green. *)
Section TwoSamples.
Variable distance : point -> point -> Q.
Variables (a : point) (s1 s2 : Painting.t).
Hypothesis d1 : (distance a (Painting.geometry s1) == 1)%Q.
Hypothesis d2 : (distance a (Painting.geometry s2) == 2)%Q.
Hypothesis red1 : (Painting.red_pct s1 == 1)%Q.
Hypothesis green1 : (Painting.green_pct s1 == 0)%Q.
Hypothesis blue1 : (Painting.blue_pct s1 == 0)%Q.
Hypothesis red2 : (Painting.red_pct s2 == 0)%Q.
Hypothesis green2 : (Painting.green_pct s2 == 1)%Q.
Hypothesis blue2 : (Painting.blue_pct s2 == 0)%Q.

Lemma two_samples_nearest (year_data : list Painting.t) :
  year_data = [s1; s2] \/ year_data = [s2; s1] ->
  nearest distance a year_data =
    [(distance a (Painting.geometry s1), s1); (distance a (Painting.geometry s2), s2)].
Proof.
  assert (Py.ltb (distance a (Painting.geometry s1)) (distance a (Painting.geometry s2)) = true)
    as H12 by (apply PyFacts.ltb_lt; lra).
  assert (Py.ltb (distance a (Painting.geometry s2)) (distance a (Painting.geometry s1)) = false)
    as H21 by (apply PyFacts.ltb_ge; lra).
  intros [-> | ->]; unfold nearest, distances, by_distance, with_distance; cbn;
    now rewrite ?H12, ?H21.
Qed.

Lemma two_samples_averages (year_data : list Painting.t) :
  year_data = [s1; s2] \/ year_data = [s2; s1] ->
  let selected := nearest distance a year_data in
  (Idw.average Painting.red_pct selected == (1 / 1.001) / ((1 / 1.001) + (1 / 2.001)))%Q /\
  (Idw.average Painting.green_pct selected == (1 / 2.001) / ((1 / 1.001) + (1 / 2.001)))%Q /\
  (Idw.average Painting.blue_pct selected == 0)%Q.
Proof.
  intros H. cbv zeta. rewrite (two_samples_nearest year_data H).
  unfold Idw.average. cbn [Idw.weighted Idw.total]. unfold Idw.weight, Idw.epsilon.
  rewrite d1, d2, red1, red2, green1, green2, blue1, blue2.
  repeat split; reflexivity.
Qed.

Lemma two_samples_color (year_data : list Painting.t) :
  year_data = [s1; s2] \/ year_data = [s2; s1] ->
  Idw.color (nearest distance a year_data) = "#aa5500".
Proof.
  intros H. destruct (two_samples_averages year_data H) as (Hr & Hg & Hb).
  unfold Idw.color.
  rewrite (hex2_comp _ _ (clamp_comp _ _ Hr)).
  rewrite (hex2_comp _ _ (clamp_comp _ _ Hg)).
  rewrite (hex2_comp _ _ (clamp_comp _ _ Hb)).
  reflexivity.
Qed.

End TwoSamples.

(** ** A further, farther painting *)

Lemma of_year_app (year : Z) (l1 l2 : list Painting.t) :
  of_year year (l1 ++ l2) = of_year year l1 ++ of_year year l2.
Proof. unfold of_year. apply List.filter_app. Qed.

Lemma of_year_extra (year : Z) (l1 l2 : list Painting.t) (extra : Painting.t) :
  Painting.year extra = year ->
  of_year year (l1 ++ extra :: l2) = of_year year l1 ++ extra :: of_year year l2.
Proof.
  intros E. rewrite of_year_app. f_equal. unfold of_year. cbn.
  now rewrite (proj2 (Z.eqb_eq _ _) E).
Qed.

(** The colour of a country is a function of the selected paintings. *)
Lemma color_country_nearest (distance : point -> point -> Q)
    (year_data year_data' : list Painting.t) (country : Country.t) (a : point) :
  Country.centroid country = Some a ->
  nearest distance a year_data = nearest distance a year_data' ->
  color_country distance year_data country = color_country distance year_data' country.
Proof. intros Ha H. unfold color_country. now rewrite Ha, H. Qed.

Lemma nearest_extra (distance : point -> point -> Q) (a : point)
    (l1 l2 : list Painting.t) (extra : Painting.t) :
  (5 <= length (l1 ++ l2))%nat ->
  (forall dp, In dp (nearest distance a (l1 ++ l2)) ->
              (fst dp < distance a (Painting.geometry extra))%Q) ->
  nearest distance a (l1 ++ extra :: l2) = nearest distance a (l1 ++ l2).
Proof.
  intros Hlen Hfar. unfold nearest in *.
  rewrite !distances_length in *. rewrite !length_app in *. cbn [length] in *.
  replace (Nat.min 5 (length l1 + S (length l2))) with 5%nat by lia.
  replace (Nat.min 5 (length l1 + length l2)) with 5%nat in * by lia.
  rewrite !distances_unfold in *. rewrite !map_app in *. cbn [List.map].
  apply (firstn_sorted_extra (by_distance) (by_distance_asym) (by_distance_ge_trans)).
  - rewrite length_app, !length_map. lia.
  - apply List.Forall_forall. intros dp Hdp.
    unfold by_distance, with_distance. cbn [fst]. apply PyFacts.ltb_lt. now apply Hfar.
Qed.

(** ** The dominant component *)

Lemma dominant_of_nan (r g b : pyfloat) :
  (isnan r || isnan g || isnan b) = true -> dominant_of r g b = None.
Proof.
  unfold dominant_of. destruct r, g, b; cbn; intros H; try discriminate; reflexivity.
Qed.

(** The label of three means: the largest, the earlier of two that are
    equal. *)
Lemma dominant_of_fin (r g b : Q) :
  ((g <= r)%Q /\ (b <= r)%Q -> dominant_of (Fin r) (Fin g) (Fin b) = Some "Red") /\
  ((r < g)%Q /\ (b <= g)%Q -> dominant_of (Fin r) (Fin g) (Fin b) = Some "Green") /\
  ((r < b)%Q /\ (g < b)%Q -> dominant_of (Fin r) (Fin g) (Fin b) = Some "Blue").
Proof.
  unfold dominant_of, Py.max3, Py.max. cbn [isnan negb andb].
  repeat split; intros [H1 H2].
  - destruct (Py.ltb r g) eqn:E1; [py_compare; lra |].
    destruct (Py.ltb r b) eqn:E2; [py_compare; lra |].
    assert (Py.eqb r r = true) as -> by (py_compare; reflexivity).
    reflexivity.
  - destruct (Py.ltb r g) eqn:E1; [| py_compare; lra].
    destruct (Py.ltb g b) eqn:E2; [py_compare; lra |].
    destruct (Py.eqb g r) eqn:E3; [py_compare; lra |].
    assert (Py.eqb g g = true) as -> by (py_compare; reflexivity).
    reflexivity.
  - assert (Py.ltb (if Py.ltb r g then g else r) b = true) as ->.
    { py_compare. destruct (Py.ltb r g); lra. }
    destruct (Py.eqb b r) eqn:E3; [py_compare; lra |].
    destruct (Py.eqb b g) eqn:E4; [py_compare; lra |].
    reflexivity.
Qed.

Lemma mean_cons (x : Q) (xs : list Q) :
  mean (x :: xs) = Fin (Qsum (x :: xs) / inject_Z (Z.of_nat (length (x :: xs)))).
Proof. reflexivity. Qed.

(** The label the call returns for a year that has paintings. *)
Lemma frame_of_label (distance : point -> point -> Q)
    (painting_data : list Painting.t) (year : Z) (regions : list Country.t) :
  of_year year painting_data <> [] ->
  snd (frame_of distance painting_data year regions) =
    match colored_indices distance (of_year year painting_data) 0 regions with
    | [] => None
    | _ => dominant (of_year year painting_data)
    end.
Proof.
  intros Hne. unfold frame_of.
  destruct (of_year year painting_data); [congruence | reflexivity].
Qed.

(** ** Ingestion *)

Lemma clip_unit (x : Q) : (0 <= clip 0 1 x <= 1)%Q.
Proof.
  unfold clip. destruct (Py.ltb x 0) eqn:E0; [lra |].
  destruct (Py.ltb 1 x) eqn:E1; [lra |].
  py_compare. lra.
Qed.

Lemma fold_max_ge (xs : list Q) :
  forall init, (init <= fold_left Py.max xs init)%Q /\
               forall x, In x xs -> (x <= fold_left Py.max xs init)%Q.
Proof.
  induction xs as [| y xs IH]; intros init; cbn.
  - split; [lra | intros ? []].
  - destruct (IH (Py.max init y)) as [Hinit Hall].
    pose proof (PyFacts.max_lower init y) as [Hi Hy].
    split; [lra |]. intros x [<- | Hx]; [lra | now apply Hall].
Qed.

(** The maximum of a column is a number once the column has a cell, and no
    cell exceeds it. *)
Lemma column_max_ge (xs : list Q) (x : Q) :
  In x xs -> exists m, column_max xs = Fin m /\ (x <= m)%Q.
Proof.
  destruct xs as [| y xs]; [intros [] |]. intros Hx. cbn [column_max].
  eexists. split; [reflexivity |].
  destruct (fold_max_ge xs y) as [Hinit Hall].
  destruct Hx as [<- | Hx]; [exact Hinit | now apply Hall].
Qed.

Lemma normalize_column_cells (xs : list Q) :
  normalize_column xs = List.map (normalize_cell xs) xs.
Proof.
  unfold normalize_column, normalize_cell.
  destruct (above_one (column_max xs)); [| reflexivity].
  rewrite List.map_map. reflexivity.
Qed.

Lemma sample_data_unit (random : nat -> Q) :
  (forall n, (0 <= random n < 1)%Q) ->
  forall painting,
    In painting (sample_data random) ->
    (0 <= Painting.red_pct painting <= 1)%Q /\
    (0 <= Painting.green_pct painting <= 1)%Q /\
    (0 <= Painting.blue_pct painting <= 1)%Q.
Proof.
  intros Hrandom painting Hin. unfold sample_data in Hin.
  apply in_flat_map in Hin as (k & _ & Hin).
  apply in_map_iff in Hin as ([j [latitude longitude]] & <- & _).
  cbn [Painting.red_pct Painting.green_pct Painting.blue_pct].
  pose proof (Hrandom (15 * k + 3 * j)%nat).
  pose proof (Hrandom (15 * k + 3 * j + 1)%nat).
  pose proof (Hrandom (15 * k + 3 * j + 2)%nat).
  repeat split; lra.
Qed.

Lemma clip_id (x : Q) : (0 <= x <= 1)%Q -> clip 0 1 x = x.
Proof.
  intros [H0 H1]. unfold clip.
  destruct (Py.ltb x 0) eqn:E0; [py_compare; lra |].
  destruct (Py.ltb 1 x) eqn:E1; [py_compare; lra | reflexivity].
Qed.

Lemma fold_max_le (bound : Q) (xs : list Q) :
  forall init,
    (init <= bound)%Q -> Forall (fun x => (x <= bound)%Q) xs ->
    (fold_left Py.max xs init <= bound)%Q.
Proof.
  induction xs as [| y xs IH]; intros init Hinit Hall; cbn; [exact Hinit |].
  inversion Hall as [| ? ? Hy Hxs]; subst.
  apply IH; [| exact Hxs]. unfold Py.max. destruct (Py.ltb init y); assumption.
Qed.

(** A column without a cell above 1 is not divided. *)
Lemma above_one_false (xs : list Q) :
  Forall (fun x => (x <= 1)%Q) xs -> above_one (column_max xs) = false.
Proof.
  intros Hall. destruct xs as [| x xs]; [reflexivity |].
  inversion Hall as [| ? ? Hx Hxs]; subst. cbn [column_max above_one].
  apply PyFacts.ltb_ge. now apply fold_max_le.
Qed.

Lemma ltb_div_255 (x : Q) :
  Py.ltb (x / 255) 0 = Py.ltb x 0 /\ Py.ltb 1 (x / 255) = Py.ltb 255 x.
Proof.
  change (x / 255)%Q with (x * (1 # 255))%Q. split.
  - destruct (Py.ltb x 0) eqn:E; py_compare; lra.
  - destruct (Py.ltb 255 x) eqn:E; py_compare; lra.
Qed.

(** The maximum of a column is one of its cells. *)
Lemma fold_max_In (xs : list Q) :
  forall init, fold_left Py.max xs init = init \/ In (fold_left Py.max xs init) xs.
Proof.
  induction xs as [| y xs IH]; intros init; cbn; [now left |].
  destruct (IH (Py.max init y)) as [E | Hin]; [| now right; right].
  rewrite E. unfold Py.max. destruct (Py.ltb init y); [right; now left | now left].
Qed.

Lemma above_one_iff (xs : list Q) :
  above_one (column_max xs) = true <-> exists x, In x xs /\ (1 < x)%Q.
Proof.
  split.
  - destruct xs as [| x xs]; [discriminate |]. cbn [column_max above_one].
    intros H. apply PyFacts.ltb_lt in H.
    exists (fold_left Py.max xs x). split; [| exact H].
    destruct (fold_max_In xs x) as [-> | Hin]; [now left | now right].
  - intros (x & Hin & Hx). destruct (column_max_ge xs x Hin) as (m & -> & Hm).
    cbn. apply PyFacts.ltb_lt. lra.
Qed.

(** ** The years of a table *)

Lemma unique_In (l : list Z) (x : Z) : In x (unique l) <-> In x l.
Proof.
  induction l as [| y l IH]; cbn; [reflexivity |].
  rewrite filter_In, IH.
  destruct (Z.eq_dec y x) as [-> | Hne].
  - split; [intros [? | [? ?]]; auto | auto].
  - split.
    + intros [? | [? ?]]; auto.
    + intros [? | ?]; [auto |]. right. split; [assumption |].
      apply negb_true_iff, Z.eqb_neq. congruence.
Qed.

Lemma unique_NoDup (l : list Z) : List.NoDup (unique l).
Proof.
  induction l as [| y l IH]; cbn; constructor.
  - rewrite filter_In. intros [_ H]. now rewrite Z.eqb_refl in H.
  - now apply List.NoDup_filter.
Qed.

Lemma years_of_In (painting_data : list Painting.t) (year : Z) :
  In year (years_of painting_data) <->
  exists painting, In painting painting_data /\ Painting.year painting = year.
Proof.
  unfold years_of.
  split.
  - intros H. apply (Permutation_in _ (sorted_perm Z.ltb _)) in H.
    apply unique_In, in_map_iff in H as (p & E & Hp). eauto.
  - intros (p & Hp & E).
    apply (Permutation_in _ (Permutation_sym (sorted_perm Z.ltb _))).
    apply unique_In, in_map_iff. eauto.
Qed.

(** The years come in strictly ascending order, each one once. *)
Lemma years_of_ascending (painting_data : list Painting.t) :
  StronglySorted Z.lt (years_of painting_data).
Proof.
  unfold years_of.
  set (l := unique (List.map Painting.year painting_data)).
  assert (List.NoDup (sorted Z.ltb l)) as Hnd.
  { eapply Permutation_NoDup; [symmetry; apply sorted_perm | apply unique_NoDup]. }
  assert (ascending Z.ltb (sorted Z.ltb l)) as Hasc.
  { apply sorted_ascending.
    - intros x y H. apply Z.ltb_lt in H. apply Z.ltb_ge. lia.
    - intros x y z H1 H2. apply Z.ltb_ge in H1, H2. apply Z.ltb_ge. lia. }
  unfold ascending in Hasc.
  induction Hasc as [| x xs Hxs IH Hx]; constructor.
  - apply IH. now inversion Hnd.
  - inversion Hnd as [| ? ? Hnotin _]; subst.
    apply List.Forall_forall. intros y Hy.
    rewrite List.Forall_forall in Hx. specialize (Hx y Hy). apply Z.ltb_ge in Hx.
    assert (x <> y) by (intros ->; contradiction). lia.
Qed.

Lemma years_of_nil (painting_data : list Painting.t) :
  years_of painting_data = [] <-> painting_data = [].
Proof.
  split.
  - intros H. destruct painting_data as [| p l]; [reflexivity | exfalso].
    assert (In (Painting.year p) (years_of (p :: l))) as Hin.
    { apply years_of_In. exists p. split; [now left | reflexivity]. }
    rewrite H in Hin. destruct Hin.
  - intros ->. reflexivity.
Qed.

(** ** The loop that saves the frames *)

Section Driver.
Variable distance : point -> point -> Q.
Variable draw : string -> figure -> option string.
Variable painting_data : list Painting.t.
Variable europe_gdf : nat.
Variable regions : list Country.t.

(** One turn of the loop: the call for the year, then either the file and
    its line or the line of the handler. *)
Lemma save_frame_run (i : nat) (year : Z) (w : world) :
  frames w !! europe_gdf = Some regions ->
  save_frame distance draw painting_data europe_gdf tt (i, year) w =
    Some (tt,
          {| frames := <[fresh (dom (frames w)) :=
                          fst (frame_of distance painting_data year regions)]> (frames w);
             stdout := stdout w ++
                       [match draw (frame_path i year)
                                (snd (saved_frame distance painting_data regions (i, year))) with
                        | None => saved_line year
                        | Some e => error_line year e
                        end];
             files := files w ++
                      match draw (frame_path i year)
                              (snd (saved_frame distance painting_data regions (i, year))) with
                      | None => [saved_frame distance painting_data regions (i, year)]
                      | Some _ => []
                      end |}).
Proof.
  intros He. unfold save_frame.
  bind_step.
  rewrite (interpolate_run distance painting_data europe_gdf year w regions He).
  bind_step; unfold rows_of.
  cbn [frames set_frames]. rewrite lookup_insert_eq.
  cbn [saved_frame snd].
  destruct (draw _ _); cbn; rewrite ?app_nil_r; reflexivity.
Qed.

(** The loop when every drawing succeeds. *)
Lemma save_frames_run (years : list Z) :
  (forall path fig, draw path fig = None) ->
  forall (k : nat) (w : world),
    frames w !! europe_gdf = Some regions ->
    exists w',
      for_each (zip (seq k (length years)) years) tt
               (save_frame distance draw painting_data europe_gdf) w = Some (tt, w') /\
      frames w' !! europe_gdf = Some regions /\
      (forall l df, frames w !! l = Some df -> frames w' !! l = Some df) /\
      stdout w' = stdout w ++ List.map saved_line years /\
      files w' = files w ++
                 List.map (saved_frame distance painting_data regions)
                          (zip (seq k (length years)) years).
Proof.
  intros Hdraw.
  induction years as [| year years IH]; intros k w He.
  - exists w. cbn. rewrite !app_nil_r. repeat split; auto.
  - cbn [length seq zip zip_with for_each].
    bind_step.
    rewrite (save_frame_run k year w He). rewrite !Hdraw.
    set (w1 := {| frames := _; stdout := _; files := _ |}).
    assert (frames w !! fresh (dom (frames w)) = None) as Hfresh.
    { apply not_elem_of_dom, is_fresh. }
    assert (forall l df, frames w !! l = Some df -> frames w1 !! l = Some df) as Hkeep.
    { intros l df Hl. subst w1. cbn [frames].
      rewrite lookup_insert_ne; [exact Hl | congruence]. }
    destruct (IH (S k) w1 (Hkeep _ _ He)) as (w' & Hrun & He' & Hkeep' & Hout & Hfiles).
    exists w'. split; [exact Hrun |]. split; [exact He' |].
    split; [intros l df Hl; apply Hkeep', Hkeep, Hl |].
    subst w1. cbn [stdout files] in Hout, Hfiles.
    rewrite Hout, Hfiles, <- !app_assoc. split; reflexivity.
Qed.

(** The whole function on a table that has a year. *)
Lemma animate_run (w : world) :
  (forall path fig, draw path fig = None) ->
  frames w !! europe_gdf = Some regions ->
  years_of painting_data <> [] ->
  let years := years_of painting_data in
  exists w',
    animate_color_usage distance draw painting_data europe_gdf w = Some (tt, w') /\
    frames w' !! europe_gdf = Some regions /\
    stdout w' = stdout w ++ ["Creating a series of PNG images..."%string]
                  ++ List.map saved_line years
                  ++ ["Individual frames saved in 'animation_frames' directory"%string] /\
    files w' = files w ++
               List.map (saved_frame distance painting_data regions)
                        (zip (seq 0 (length years)) years).
Proof.
  intros Hdraw He Hne. cbv zeta. unfold animate_color_usage.
  destruct (years_of painting_data) as [| y ys]; [congruence |].
  bind_step. cbn [print].
  set (w0 := {| frames := frames w; stdout := _; files := files w |}).
  destruct (save_frames_run (y :: ys) Hdraw 0 w0 He) as (w' & Hrun & He' & _ & Hout & Hfiles).
  bind_step. rewrite Hrun. cbn [print].
  eexists. split; [reflexivity |]. cbn [frames stdout files].
  split; [exact He' |].
  subst w0. cbn [stdout files] in Hout, Hfiles.
  rewrite Hout, Hfiles, <- !app_assoc. split; reflexivity.
Qed.

End Driver.

Lemma enumerate_lookup {A : Type} (l : list A) :
  forall (k i : nat) (x : A),
    l !! i = Some x -> zip (seq k (length l)) l !! i = Some ((k + i)%nat, x).
Proof.
  induction l as [| y l IH]; intros k i x Hi; [discriminate |].
  destruct i as [| i]; cbn [length seq].
  - cbn in *. inversion Hi; subst. now rewrite Nat.add_0_r.
  - change (zip (seq (S k) (length l)) l !! i = Some ((k + S i)%nat, x)).
    rewrite (IH (S k) i x Hi). f_equal. f_equal. lia.
Qed.

(** ** Calls do not see each other *)

Lemma paint_same_geometry (distance : point -> point -> Q)
    (year_data : list Painting.t) (c c' : Country.t) :
  same_geometry c c' -> paint distance year_data c = paint distance year_data c'.
Proof.
  intros [Hn Hc]. unfold paint, Country.with_color, color_country.
  now rewrite Hn, Hc.
Qed.

Lemma frame_of_same_geometry (distance : point -> point -> Q)
    (painting_data : list Painting.t) (year : Z) (regions regions' : list Country.t) :
  Forall2 same_geometry regions regions' ->
  frame_of distance painting_data year regions = frame_of distance painting_data year regions'.
Proof.
  intros H. unfold frame_of.
  destruct (of_year year painting_data) as [| p yd].
  - f_equal. induction H as [| c c' l l' [Hn Hc] _ IH]; cbn; [reflexivity |].
    f_equal; [| exact IH]. unfold Country.with_color. now rewrite Hn, Hc.
  - assert (paint distance (p :: yd) <$> regions = paint distance (p :: yd) <$> regions') as ->.
    { induction H as [| c c' l l' Hcc _ IH]; cbn; [reflexivity |].
      f_equal; [now apply paint_same_geometry | exact IH]. }
    assert (forall k, colored_indices distance (p :: yd) k regions
                      = colored_indices distance (p :: yd) k regions') as ->; [| reflexivity].
    induction H as [| c c' l l' [Hn Hc] _ IH]; intros k; cbn; [reflexivity |].
    rewrite IH. unfold color_country. now rewrite Hc.
Qed.

Lemma frame_of_keeps_geometry (distance : point -> point -> Q)
    (painting_data : list Painting.t) (year : Z) (regions : list Country.t) :
  Forall2 same_geometry (fst (frame_of distance painting_data year regions)) regions.
Proof.
  unfold frame_of. destruct (of_year year painting_data); cbn [fst];
    induction regions; cbn; constructor; try assumption; split; reflexivity.
Qed.

(** ** The model at work *)

Example sorted_is_stable :
  sorted by_distance
    [(2%Q, Example.green_painting); (1%Q, Example.red_painting); (2%Q, Example.gray_painting)] =
  [(1%Q, Example.red_painting); (2%Q, Example.green_painting); (2%Q, Example.gray_painting)].
Proof. reflexivity. Qed.

Example years_of_paintings :
  unique [2000; 1990; 2000] = [2000; 1990] /\ years_of Example.paintings = [1990; 2000].
Proof. split; reflexivity. Qed.

Example germany_in_2000 :
  color_country planar_distance (of_year 2000 Example.paintings) Example.germany
    = Colored "#aa5500" /\
  color_country planar_distance (of_year 2000 Example.paintings) Example.atlantis = Raised /\
  color_country planar_distance (of_year 1990 Example.paintings) Example.germany
    = Colored "#808080".
Proof. repeat split. Qed.

Example table_loaded :
  List.map (fun p => (Painting.year p, Painting.red_pct p, Painting.green_pct p, Painting.blue_pct p))
           (load_painting_data [None; Some Example.table] Example.draw) =
  [(2000, 1%Q, 0.2%Q, 0.33%Q); (1990, (51 # 255)%Q, 0.9%Q, 1%Q)].
Proof. reflexivity. Qed.

Example table_generated :
  length (load_painting_data [None; None; None; None] Example.draw) = 105%nat /\
  List.map Painting.year (firstn 6 (load_painting_data [] Example.draw)) =
    [1900; 1900; 1900; 1900; 1900; 1905].
Proof. split; reflexivity. Qed.

(** A drawing that raises is reported, and the loop goes on to the next
    year. *)
Example refused_drawings :
  exists w',
    animate_color_usage planar_distance Example.refused Example.paintings 0%nat
      (Example.world_with Example.countries) = Some (tt, w') /\
    stdout w' =
      ["Creating a series of PNG images...";
       "Error processing frame for year 1990: 'color'";
       "Error processing frame for year 2000: 'color'";
       "Individual frames saved in 'animation_frames' directory"]%string /\
    files w' = [].
Proof. eexists. repeat split. Qed.

(** * The claims *)

(** C2.  For a country with a centroid and a year with at least five
    paintings, the paintings that determine the colour are the
    [min(5, count)] first ones in ascending order of distance: they are
    five, they are paintings of the year, and no painting left out is
    nearer than one of them.  A further painting of that year, strictly
    farther from the centroid than those five and standing anywhere in the
    table, leaves the selection and the colour of the country unchanged. *)
Theorem farther_sample_changes_nothing (distance : point -> point -> Q)
    (before_it after_it : list Painting.t) (extra : Painting.t)
    (europe_gdf : nat) (year : Z) (w : world) (regions : list Country.t)
    (idx : nat) (country : Country.t) (a : point) :
  frames w !! europe_gdf = Some regions ->
  regions !! idx = Some country ->
  Country.centroid country = Some a ->
  Painting.year extra = year ->
  (5 <= length (of_year year (before_it ++ after_it)))%nat ->
  let year_data := of_year year (before_it ++ after_it) in
  let selected := nearest distance a year_data in
  (length selected = Nat.min 5 (length year_data) /\
   StronglySorted (fun x y => (fst x <= fst y)%Q) selected /\
   exists left_out,
     Permutation (List.map (with_distance distance a) year_data) (selected ++ left_out) /\
     forall x y, In x selected -> In y left_out -> (fst x <= fst y)%Q) /\
  ((forall dp, In dp selected -> (fst dp < distance a (Painting.geometry extra))%Q) ->
   nearest distance a (of_year year (before_it ++ extra :: after_it)) = selected /\
   exists frame dominant_color frame' dominant_color' row,
     returns_frame
       (interpolate_colors_to_countries distance (before_it ++ after_it) europe_gdf year w)
       frame dominant_color /\
     returns_frame
       (interpolate_colors_to_countries distance (before_it ++ extra :: after_it) europe_gdf year w)
       frame' dominant_color' /\
     frame !! idx = Some row /\ frame' !! idx = Some row /\
     Country.color row = Some (written (color_country distance year_data country))).
Proof.
  intros He Hidx Ha Hextra Hlen year_data selected. subst selected year_data.
  set (year_data := of_year year (before_it ++ after_it)) in *.
  split.
  - split; [apply nearest_length |]. split; [apply nearest_ascending |].
    apply nearest_are_nearest.
  - intros Hfar.
    assert (nearest distance a (of_year year (before_it ++ extra :: after_it)) =
            nearest distance a year_data) as Hsame.
    { rewrite (of_year_extra year _ _ extra Hextra).
      subst year_data. rewrite of_year_app in *.
      now apply nearest_extra. }
    split; [exact Hsame |].
    pose proof (interpolate_returns distance (before_it ++ after_it) europe_gdf year w regions He)
      as Hr.
    pose proof (interpolate_returns distance (before_it ++ extra :: after_it) europe_gdf year w
                  regions He) as Hr'.
    unfold frame_of in Hr, Hr'. fold year_data in Hr.
    assert (color_country distance (of_year year (before_it ++ extra :: after_it)) country =
            color_country distance year_data country) as Hcolor.
    { now apply (color_country_nearest distance _ _ country a Ha). }
    clearbody year_data.
    destruct year_data as [| p yd]; [cbn in Hlen; lia |].
    destruct (of_year year (before_it ++ extra :: after_it)) as [| p' yd'] eqn:Ey'.
    { rewrite (of_year_extra year _ _ extra Hextra) in Ey'.
      now destruct (of_year year before_it). }
    cbn [fst snd] in Hr, Hr'.
    eexists _, _, _, _, (paint distance (p :: yd) country).
    split; [exact Hr |]. split; [exact Hr' |].
    split; [rewrite list_lookup_fmap, Hidx; reflexivity |].
    split; [| reflexivity].
    rewrite list_lookup_fmap, Hidx. cbn. unfold paint. now rewrite Hcolor.
Qed.

(** C3.  When no painting carries the requested year, the call returns the
    frame in which every country has exactly the colour [#CCCCCC], and the
    label of the dominant component is [None]; no country counts as having
    had data, since on an empty table the block of a country never ends
    with a computed colour. *)
Theorem no_data_year_is_gray (distance : point -> point -> Q)
    (painting_data : list Painting.t) (europe_gdf : nat) (year : Z)
    (w : world) (regions : list Country.t) :
  frames w !! europe_gdf = Some regions ->
  (forall painting, In painting painting_data -> Painting.year painting <> year) ->
  exists frame,
    returns_frame (interpolate_colors_to_countries distance painting_data europe_gdf year w)
      frame None /\
    frame = List.map (Country.with_color "#CCCCCC") regions /\
    length frame = length regions /\
    (forall row, In row frame -> Country.color row = Some "#CCCCCC") /\
    (forall country, has_color (color_country distance [] country) = false).
Proof.
  intros He Hnone. apply (proj1 (of_year_nil _ _)) in Hnone.
  pose proof (interpolate_returns distance painting_data europe_gdf year w regions He) as Hr.
  unfold frame_of in Hr. rewrite Hnone in Hr. cbn [fst snd] in Hr.
  eexists. split; [exact Hr |]. split; [reflexivity |].
  split; [apply length_map |]. split.
  - intros row Hrow. apply in_map_iff in Hrow as (c & <- & _). reflexivity.
  - intros country. unfold color_country.
    destruct (Country.centroid country); reflexivity.
Qed.


(** C5.  Whatever the paintings, the countries and the year, the call
    returns a frame with one row per country, in the same order, and every
    row carries a colour that is [#] and six hexadecimal digits.  A country
    whose block raises, or a year without paintings, gives the gray
    [#CCCCCC], and so does the guarded conversion whenever a channel is
    not-a-number or outside [0, 1]; no such case stops the call. *)
Theorem every_country_gets_a_color (distance : point -> point -> Q)
    (painting_data : list Painting.t) (europe_gdf : nat) (year : Z)
    (w : world) (regions : list Country.t) :
  frames w !! europe_gdf = Some regions ->
  exists frame dominant_color,
    returns_frame (interpolate_colors_to_countries distance painting_data europe_gdf year w)
      frame dominant_color /\
    length frame = length regions /\
    (forall idx country,
       regions !! idx = Some country ->
       exists row c,
         frame !! idx = Some row /\
         Country.NAME row = Country.NAME country /\
         Country.centroid row = Country.centroid country /\
         Country.color row = Some c /\
         is_hex_color c = true /\
         (Country.centroid country = None -> c = "#CCCCCC") /\
         (of_year year painting_data = [] -> c = "#CCCCCC")) /\
    (forall row, In row frame -> exists c, Country.color row = Some c /\ is_hex_color c = true) /\
    (forall r g b : pyfloat,
       is_hex_color (checked_hex r g b) = true /\
       ((isnan r || isnan g || isnan b
         || negb (between 0 1 r) || negb (between 0 1 g) || negb (between 0 1 b)) = true ->
        checked_hex r g b = "#CCCCCC")).
Proof.
  intros He.
  pose proof (interpolate_returns distance painting_data europe_gdf year w regions He) as Hr.
  eexists _, _. split; [exact Hr |].
  unfold frame_of.
  destruct (of_year year painting_data) as [| p year_data]; cbn [fst snd].
  - split; [apply length_fmap |]. split; [| split].
    + intros idx country Hidx.
      exists (Country.with_color default_gray country), default_gray.
      rewrite list_lookup_fmap, Hidx. repeat split; reflexivity.
    + intros row Hrow. apply in_map_iff in Hrow as (c & <- & _).
      exists default_gray. split; reflexivity.
    + intros r g b. split; [apply checked_hex_color | apply checked_hex_invalid].
  - split; [apply length_fmap |]. split; [| split].
    + intros idx country Hidx.
      exists (paint distance (p :: year_data) country),
             (written (color_country distance (p :: year_data) country)).
      rewrite list_lookup_fmap, Hidx.
      repeat split; try reflexivity.
      * apply written_color.
      * intros Hnone. unfold color_country. now rewrite Hnone.
      * discriminate.
    + intros row Hrow. apply in_map_iff in Hrow as (c & <- & _).
      eexists. split; [reflexivity | apply written_color].
    + intros r g b. split; [apply checked_hex_color | apply checked_hex_invalid].
Qed.

(** C6.  In the table [load_painting_data] returns, every colour cell lies
    in [0, 1], whether the table comes from the file or is the generated
    one (whose cells are draws from [0, 1)).  For a table read from the
    file each colour column is the filled column, divided by 255 as a whole
    when its maximum exceeds 1, and then clipped to [0, 1] cell by cell,
    each channel on its own.  A red cell of 300 is first [300 / 255] and
    then exactly 1.  Clipping keeps a cell of [0, 1] as it is and sends a
    cell below 0 to 0 and a cell above 1 to 1; so, cell by cell: in a column
    that has a cell above 1 a cell [x] of [0, 255] becomes exactly
    [x / 255] and a cell above 255 becomes 1, in a column without such a
    cell a cell that is not negative is kept, and a negative cell becomes 0
    in both. *)
Theorem channels_in_unit_interval (attempts : list (option (list Csv.t)))
    (random : nat -> Q) :
  (forall n, (0 <= random n < 1)%Q) ->
  (forall painting,
     In painting (load_painting_data attempts random) ->
     (0 <= Painting.red_pct painting <= 1)%Q /\
     (0 <= Painting.green_pct painting <= 1)%Q /\
     (0 <= Painting.blue_pct painting <= 1)%Q) /\
  (forall data,
     first_readable attempts = Some data ->
     let red := List.map (fun row => fillna 0.33 (Csv.red_pct row)) data in
     let green := List.map (fun row => fillna 0.33 (Csv.green_pct row)) data in
     let blue := List.map (fun row => fillna 0.33 (Csv.blue_pct row)) data in
     length (load_painting_data attempts random) = length data /\
     List.map Painting.red_pct (load_painting_data attempts random) = normalize_column red /\
     List.map Painting.green_pct (load_painting_data attempts random) = normalize_column green /\
     List.map Painting.blue_pct (load_painting_data attempts random) = normalize_column blue /\
     forall idx row,
       data !! idx = Some row ->
       Csv.red_pct row = Some 300%Q ->
       above_one (column_max red) = true /\
       exists painting,
         load_painting_data attempts random !! idx = Some painting /\
         Painting.red_pct painting = clip 0 1 (300 / 255)%Q /\
         Painting.red_pct painting = 1%Q) /\
  (forall column,
     normalize_column column =
       if above_one (column_max column)
       then List.map (fun x => clip 0 1 (x / 255)%Q) column
       else List.map (clip 0 1) column) /\
  (forall x, (0 <= clip 0 1 x <= 1)%Q) /\
  (forall x, (0 <= x <= 1)%Q -> clip 0 1 x = x) /\
  (forall x, (x < 0)%Q -> clip 0 1 x = 0%Q) /\
  (forall x, (1 < x)%Q -> clip 0 1 x = 1%Q) /\
  (forall column,
     (above_one (column_max column) = true <-> exists x, In x column /\ (1 < x)%Q) /\
     forall idx x,
       column !! idx = Some x ->
       exists y,
         normalize_column column !! idx = Some y /\
         (above_one (column_max column) = false -> (0 <= x)%Q -> y = x) /\
         (above_one (column_max column) = true -> (0 <= x <= 255)%Q -> y = (x / 255)%Q) /\
         (above_one (column_max column) = true -> (255 < x)%Q -> y = 1%Q) /\
         ((x < 0)%Q -> y = 0%Q)).
Proof.
  intros Hrandom. split; [| split; [| split; [| split; [| split; [| split; [| split]]]]]].
  - intros painting Hin. unfold load_painting_data in Hin.
    destruct (first_readable attempts) as [data |].
    + unfold sanitize in Hin. apply in_map_iff in Hin as (row & <- & _). cbn.
      unfold normalize_cell. repeat split; apply clip_unit.
    + now apply (sample_data_unit random Hrandom).
  - intros data Hread. cbv zeta. unfold load_painting_data. rewrite Hread.
    split; [unfold sanitize; apply length_map |].
    unfold sanitize. rewrite !normalize_column_cells, !List.map_map.
    split; [reflexivity |]. split; [reflexivity |]. split; [reflexivity |].
    intros idx row Hidx Hred.
    assert (above_one
              (column_max (List.map (fun row => fillna 0.33 (Csv.red_pct row)) data)) = true)
      as Habove.
    { destruct (column_max_ge (List.map (fun row => fillna 0.33 (Csv.red_pct row)) data) 300)
        as (m & -> & Hm).
      - apply in_map_iff. exists row. rewrite Hred. split; [reflexivity |].
        apply list_elem_of_In. eapply list_elem_of_lookup_2. exact Hidx.
      - cbn. apply PyFacts.ltb_lt. lra. }
    split; [exact Habove |].
    eexists. split; [rewrite list_lookup_fmap, Hidx; reflexivity |].
    cbn [Painting.red_pct]. unfold normalize_cell. rewrite Habove, Hred.
    split; reflexivity.
  - intros column. unfold normalize_column.
    destruct (above_one (column_max column)); [| reflexivity].
    now rewrite List.map_map.
  - apply clip_unit.
  - apply clip_id.
  - intros x Hx. unfold clip. apply PyFacts.ltb_lt in Hx. now rewrite Hx.
  - intros x Hx. unfold clip.
    destruct (Py.ltb x 0) eqn:E0; [py_compare; lra |].
    apply PyFacts.ltb_lt in Hx. now rewrite Hx.
  - intros column. split; [apply above_one_iff |].
    intros idx x Hidx.
    assert (In x column) as Hin by (apply list_elem_of_In; eapply list_elem_of_lookup_2; eauto).
    rewrite normalize_column_cells, list_lookup_fmap, Hidx. cbn [fmap option_fmap option_map].
    eexists. split; [reflexivity |]. unfold normalize_cell.
    split; [| split; [| split]].
    + intros Hlow Hx. rewrite Hlow. apply clip_id. split; [exact Hx |].
      destruct (column_max_ge column x Hin) as (m & Hm & Hle).
      rewrite Hm in Hlow. cbn in Hlow. py_compare. lra.
    + intros Hhigh [H0 H255]. rewrite Hhigh. unfold clip.
      destruct (ltb_div_255 x) as [-> ->].
      destruct (Py.ltb x 0) eqn:E0; [py_compare; lra |].
      destruct (Py.ltb 255 x) eqn:E1; [py_compare; lra | reflexivity].
    + intros Hhigh Hx. rewrite Hhigh. unfold clip.
      destruct (ltb_div_255 x) as [-> ->].
      destruct (Py.ltb x 0) eqn:E0; [py_compare; lra |].
      apply PyFacts.ltb_lt in Hx. now rewrite Hx.
    + intros Hx. unfold clip.
      assert (Py.ltb (if above_one (column_max column) then x / 255 else x)%Q 0 = true) as ->;
        [| reflexivity].
      destruct (above_one (column_max column)); [| now apply PyFacts.ltb_lt].
      destruct (ltb_div_255 x) as [-> _]. now apply PyFacts.ltb_lt.
Qed.

(** C7.  On a table that is not empty the driver ends normally.  The years
    it visits are the distinct years of the table in strictly ascending
    order, and, drawing and saving being successful, it writes exactly one
    file per year, in that order: the file at position [i] is named
    [animation_frames/frame_<i>_<year>.png], with the index on three
    digits, and shows the frame a call for that year returns. *)
Theorem one_frame_per_year (distance : point -> point -> Q)
    (draw : string -> figure -> option string)
    (painting_data : list Painting.t) (europe_gdf : nat)
    (w : world) (regions : list Country.t) :
  (forall path fig, draw path fig = None) ->
  frames w !! europe_gdf = Some regions ->
  painting_data <> [] ->
  exists years w',
    animate_color_usage distance draw painting_data europe_gdf w = Some (tt, w') /\
    years = years_of painting_data /\
    years <> [] /\
    StronglySorted Z.lt years /\
    (forall year,
       In year years <->
       exists painting, In painting painting_data /\ Painting.year painting = year) /\
    length (files w') = (length (files w) + length years)%nat /\
    firstn (length (files w)) (files w') = files w /\
    (forall i year,
       years !! i = Some year ->
       exists fig dominant_color,
         files w' !! (length (files w) + i)%nat =
           Some (("animation_frames/frame_" ++ format_03d i ++ "_" ++ format_d year ++ ".png")%string,
                 fig) /\
         returns_frame (interpolate_colors_to_countries distance painting_data europe_gdf year w)
           (shapes fig) dominant_color /\
         texts fig = texts_of year dominant_color).
Proof.
  intros Hdraw He Hne.
  assert (years_of painting_data <> []) as Hyears.
  { intros H. apply years_of_nil in H. contradiction. }
  destruct (animate_run distance draw painting_data europe_gdf regions w Hdraw He Hyears)
    as (w' & Hrun & _ & _ & Hfiles).
  exists (years_of painting_data), w'.
  split; [exact Hrun |]. split; [reflexivity |]. split; [exact Hyears |].
  split; [apply years_of_ascending |]. split; [apply years_of_In |].
  rewrite Hfiles. split; [| split].
  - rewrite length_app, length_map, length_zip, length_seq. lia.
  - rewrite firstn_app, Nat.sub_diag, firstn_all. cbn. apply app_nil_r.
  - intros i year Hi.
    exists (Figure (fst (frame_of distance painting_data year regions))
                   (texts_of year (snd (frame_of distance painting_data year regions)))),
           (snd (frame_of distance painting_data year regions)).
    split; [| split; [| reflexivity]].
    + rewrite lookup_app_r by lia.
      replace (length (files w) + i - length (files w))%nat with i by lia.
      rewrite list_lookup_fmap, (enumerate_lookup _ 0 i year Hi). reflexivity.
    + cbn [shapes]. now apply interpolate_returns.
Qed.

(** C8.  On an empty table the driver prints the one line
    [No years found in the data.] and returns normally: it writes no file,
    allocates no frame, draws nothing and does not depend on the
    countries.  An empty table is the only one without years. *)
Theorem empty_table_is_reported (distance : point -> point -> Q)
    (draw : string -> figure -> option string) (europe_gdf : nat) (w : world) :
  animate_color_usage distance draw [] europe_gdf w =
    Some (tt, {| frames := frames w;
                 stdout := stdout w ++ ["No years found in the data."%string];
                 files := files w |}) /\
  (forall painting_data, years_of painting_data = [] <-> painting_data = []).
Proof. split; [reflexivity | apply years_of_nil]. Qed.

(** C9.  A call is a function of the paintings, the year and the names and
    geometries of the countries.  Two calls with the same arguments, the
    second in the world the first has left, return the same frame and the
    same label; each writes into a copy of its own, so the frame of the
    first call, the countries passed in and every other object stay as they
    were, and nothing is printed or saved.  A call for another year in
    between changes nothing, and colours already present in the rows (those
    of an earlier frame, say) are overwritten and never show in the
    result. *)
Theorem interpolation_keeps_no_state (distance : point -> point -> Q)
    (painting_data : list Painting.t) (europe_gdf : nat) (year other_year : Z)
    (w : world) (regions : list Country.t) :
  frames w !! europe_gdf = Some regions ->
  exists frame dominant_color colored1 w1 colored2 w2,
    interpolate_colors_to_countries distance painting_data europe_gdf year w
      = Some ((colored1, dominant_color), w1) /\
    frames w1 !! colored1 = Some frame /\
    interpolate_colors_to_countries distance painting_data europe_gdf year w1
      = Some ((colored2, dominant_color), w2) /\
    frames w2 !! colored2 = Some frame /\
    colored1 <> colored2 /\
    frames w2 !! colored1 = Some frame /\
    frames w1 !! europe_gdf = Some regions /\
    frames w2 !! europe_gdf = Some regions /\
    (forall l df, frames w !! l = Some df -> frames w2 !! l = Some df) /\
    stdout w2 = stdout w /\ files w2 = files w /\
    (exists colored' dominant_color' w',
       interpolate_colors_to_countries distance painting_data europe_gdf other_year w
         = Some ((colored', dominant_color'), w') /\
       returns_frame (interpolate_colors_to_countries distance painting_data europe_gdf year w')
         frame dominant_color) /\
    (forall v europe' regions',
       frames v !! europe' = Some regions' ->
       Forall2 same_geometry regions' regions ->
       returns_frame (interpolate_colors_to_countries distance painting_data europe' year v)
         frame dominant_color) /\
    returns_frame (interpolate_colors_to_countries distance painting_data colored1 year w1)
      frame dominant_color.
Proof.
  intros He.
  set (frame := fst (frame_of distance painting_data year regions)).
  set (label := snd (frame_of distance painting_data year regions)).
  set (l1 := fresh (dom (frames w))).
  set (w1 := set_frames (<[l1 := frame]> (frames w)) w).
  assert (frames w !! l1 = None) as Hfresh1 by (apply not_elem_of_dom, is_fresh).
  assert (l1 <> europe_gdf) as Hne1 by congruence.
  assert (frames w1 !! europe_gdf = Some regions) as He1.
  { subst w1. cbn [frames set_frames]. now rewrite lookup_insert_ne. }
  assert (frames w1 !! l1 = Some frame) as Hl1.
  { subst w1. cbn [frames set_frames]. apply lookup_insert_eq. }
  set (l2 := fresh (dom (frames w1))).
  set (w2 := set_frames (<[l2 := frame]> (frames w1)) w1).
  assert (frames w1 !! l2 = None) as Hfresh2 by (apply not_elem_of_dom, is_fresh).
  assert (l1 <> l2) as Hne12 by congruence.
  assert (l2 <> europe_gdf) as Hne2 by congruence.
  exists frame, label, l1, w1, l2, w2.
  split; [apply (interpolate_run distance painting_data europe_gdf year w regions He) |].
  split; [exact Hl1 |].
  split; [apply (interpolate_run distance painting_data europe_gdf year w1 regions He1) |].
  split; [subst w2; cbn [frames set_frames]; apply lookup_insert_eq |].
  split; [exact Hne12 |].
  split; [subst w2; cbn [frames set_frames]; rewrite lookup_insert_ne; congruence |].
  split; [exact He1 |].
  split; [subst w2; cbn [frames set_frames]; rewrite lookup_insert_ne; congruence |].
  split.
  { intros l df Hl.
    assert (l1 <> l) as Hl1l by congruence.
    assert (frames w1 !! l = Some df) as Hl'.
    { subst w1. cbn [frames set_frames]. now rewrite lookup_insert_ne. }
    assert (l2 <> l) as Hl2l by congruence.
    subst w2. cbn [frames set_frames]. now rewrite lookup_insert_ne. }
  split; [reflexivity |]. split; [reflexivity |].
  split; [| split].
  - eexists _, _, _.
    split; [apply (interpolate_run distance painting_data europe_gdf other_year w regions He) |].
    apply interpolate_returns. cbn [frames set_frames].
    rewrite lookup_insert_ne; [exact He | exact Hne1].
  - intros v europe' regions' Hv Hsame.
    subst frame label.
    rewrite <- (frame_of_same_geometry distance painting_data year regions' regions Hsame).
    now apply interpolate_returns.
  - subst frame label.
    rewrite <- (frame_of_same_geometry distance painting_data year _ regions
                  (frame_of_keeps_geometry distance painting_data year regions)).
    now apply interpolate_returns.
Qed.

(** * The claims on concrete inputs *)

Lemma planar_distance_nonneg (a b : point) : (0 <= planar_distance a b)%Q.
Proof.
  unfold planar_distance, sqrt_nine_places, Qle. cbn.
  rewrite Z.mul_1_r. apply Z.sqrt_nonneg.
Qed.

(** C2 on six paintings: the one at distance 10 does not change the
    selection for Germany. *)
Lemma farther_sample_changes_nothing_witness :
  nearest planar_distance Example.anchor
    (of_year 2000 (Example.first_three ++ Example.far_away :: Example.last_two)) =
  nearest planar_distance Example.anchor (of_year 2000 (Example.first_three ++ Example.last_two)).
Proof.
  destruct (farther_sample_changes_nothing planar_distance Example.first_three Example.last_two
              Example.far_away 0%nat 2000 (Example.world_with Example.countries) Example.countries
              0%nat Example.germany Example.anchor
              eq_refl eq_refl eq_refl eq_refl) as [_ Hsame].
  - cbn. lia.
  - apply Hsame. intros dp Hdp. vm_compute in Hdp.
    repeat (destruct Hdp as [<- | Hdp]; [reflexivity |]). destruct Hdp.
Defined.

(** C3 on the example table: nobody painted in 1950. *)
Lemma no_data_year_is_gray_witness :
  exists frame,
    returns_frame
      (interpolate_colors_to_countries planar_distance Example.paintings 0%nat 1950
         (Example.world_with Example.countries))
      frame None /\
    List.map Country.color frame = [Some "#CCCCCC"%string; Some "#CCCCCC"%string].
Proof.
  destruct (no_data_year_is_gray planar_distance Example.paintings 0%nat 1950
              (Example.world_with Example.countries) Example.countries eq_refl)
    as (frame & Hret & -> & _).
  - intros painting [<- | [<- | [<- | []]]]; discriminate.
  - eexists. split; [exact Hret | reflexivity].
Defined.

(** C5 on the example table: both countries carry a colour string, the
    one without geometry the gray. *)
Lemma every_country_gets_a_color_witness :
  exists frame dominant_color,
    returns_frame
      (interpolate_colors_to_countries planar_distance Example.paintings 0%nat 2000
         (Example.world_with Example.countries))
      frame dominant_color /\
    length frame = 2%nat /\
    (forall row, In row frame ->
                 exists c, Country.color row = Some c /\ is_hex_color c = true).
Proof.
  destruct (every_country_gets_a_color planar_distance Example.paintings 0%nat 2000
              (Example.world_with Example.countries) Example.countries eq_refl)
    as (frame & dominant_color & Hret & Hlen & _ & Hall & _).
  exists frame, dominant_color. split; [exact Hret |]. split; [exact Hlen | exact Hall].
Defined.

(** C7 on the example table: the years 1990 and 2000 give two files. *)
Lemma one_frame_per_year_witness :
  exists w',
    animate_color_usage planar_distance Example.drawn Example.paintings 0%nat
      (Example.world_with Example.countries) = Some (tt, w') /\
    List.map fst (files w') =
      ["animation_frames/frame_000_1990.png"%string;
       "animation_frames/frame_001_2000.png"%string].
Proof.
  destruct (one_frame_per_year planar_distance Example.drawn Example.paintings 0%nat
              (Example.world_with Example.countries) Example.countries
              (fun _ _ => eq_refl) eq_refl)
    as (years & w' & Hrun & Hyears & _ & _ & _ & Hlen & _ & Hfiles).
  - discriminate.
  - exists w'. split; [exact Hrun |].
    subst years. cbn in Hlen.
    destruct (Hfiles 0%nat 1990 eq_refl) as (fig0 & d0 & H0 & _).
    destruct (Hfiles 1%nat 2000 eq_refl) as (fig1 & d1 & H1 & _).
    cbn in H0, H1.
    destruct (files w') as [| f0 [| f1 [| f2 rest]]]; try discriminate.
    cbn in H0, H1. inversion H0; inversion H1; subst. reflexivity.
Defined.

(** C9 on the example table: a second call returns what the first
    returned. *)
Lemma interpolation_keeps_no_state_witness :
  exists frame dominant_color colored1 w1 colored2 w2,
    interpolate_colors_to_countries planar_distance Example.paintings 0%nat 2000
      (Example.world_with Example.countries) = Some ((colored1, dominant_color), w1) /\
    interpolate_colors_to_countries planar_distance Example.paintings 0%nat 2000 w1
      = Some ((colored2, dominant_color), w2) /\
    frames w1 !! colored1 = Some frame /\
    frames w2 !! colored2 = Some frame /\
    frames w2 !! 0%nat = Some Example.countries.
Proof.
  destruct (interpolation_keeps_no_state planar_distance Example.paintings 0%nat 2000 1990
              (Example.world_with Example.countries) Example.countries eq_refl)
    as (frame & dominant_color & colored1 & w1 & colored2 & w2
        & H1 & Hf1 & H2 & Hf2 & _ & _ & _ & He2 & _).
  exists frame, dominant_color, colored1, w1, colored2, w2. repeat split; assumption.
Defined.

Lemma draw_range (n : nat) : (0 <= Example.draw n < 1)%Q.
Proof.
  unfold Example.draw, Qle, Qlt. cbn.
  pose proof (Nat.mod_upper_bound n 7). lia.
Qed.

(** C6 on the example table, read at the second attempt: the red cell of
    300 becomes 1. *)
Lemma channels_in_unit_interval_witness :
  exists painting,
    load_painting_data [None; Some Example.table] Example.draw !! 0%nat = Some painting /\
    Painting.red_pct painting = 1%Q /\
    (0 <= Painting.green_pct painting <= 1)%Q.
Proof.
  destruct (channels_in_unit_interval [None; Some Example.table] Example.draw draw_range)
    as (Hall & Htable & _).
  destruct (Htable Example.table eq_refl) as (_ & _ & _ & _ & Hcell).
  destruct (Hcell 0%nat _ eq_refl eq_refl) as (_ & painting & Hp & _ & Hone).
  exists painting. split; [exact Hp |]. split; [exact Hone |].
  apply Hall. apply list_elem_of_In. eapply list_elem_of_lookup_2. exact Hp.
Defined.

(** * Further properties of the script *)

(** ** The map of the countries *)

Lemma isin_In (names : list string) (name : string) :
  isin names name = true <-> In name names.
Proof.
  unfold isin. rewrite existsb_exists. split.
  - intros (x & Hx & E). apply String.eqb_eq in E. now subst.
  - intros H. exists name. split; [exact H | apply String.eqb_refl].
Qed.

Lemma filter_sublist {A : Type} (f : A -> bool) (l : list A) : sublist (List.filter f l) l.
Proof.
  induction l as [| x l IH]; cbn; [constructor |].
  destruct (f x); now constructor.
Qed.

Lemma only_european_In (europe : list Country.t) (row : Country.t) :
  In row (only_european europe) <->
  In row europe /\ In (Country.NAME row) european_countries.
Proof. unfold only_european. now rewrite filter_In, isin_In. Qed.

Lemma first_existing_Some (path_exists : string -> bool) (paths : list string) (path : string) :
  first_existing path_exists paths = Some path ->
  In path paths /\ path_exists path = true.
Proof.
  induction paths as [| p rest IH]; cbn; [discriminate |].
  destruct (path_exists p) eqn:E.
  - intros [= <-]. split; [now left | exact E].
  - intros H. destruct (IH H). split; [now right | assumption].
Qed.

Lemma first_existing_None (path_exists : string -> bool) (paths : list string) :
  first_existing path_exists paths = None <->
  forall path, In path paths -> path_exists path = false.
Proof.
  induction paths as [| p rest IH]; cbn.
  - split; [intros _ ? [] | reflexivity].
  - destruct (path_exists p) eqn:E.
    + split; [discriminate |]. intros H. specialize (H p (or_introl eq_refl)). congruence.
    + rewrite IH. split.
      * intros H path [<- | Hin]; [exact E | now apply H].
      * intros H path Hin. apply H. now right.
Qed.

(** The outline is a rectangle; its centroid is its middle. *)
Lemma simple_map_rows :
  snd create_simple_europe_map =
    [ {| Country.NAME := "Europe"; Country.centroid := Some (Point 15 55);
         Country.color := None |} ].
Proof. reflexivity. Qed.

(** The rows [load_europe_map] returns are those of the fallback map or
    the listed rows of what was read. *)
Lemma load_europe_map_cases (path_exists : string -> bool)
    (read_file : string -> string + list Country.t) :
  snd (load_europe_map path_exists read_file) = snd create_simple_europe_map \/
  exists source europe,
    read_file source = inr europe /\
    snd (load_europe_map path_exists read_file) = only_european europe /\
    (In source potential_paths /\ path_exists source = true \/
     source = natural_earth_url /\
     forall path, In path potential_paths -> path_exists path = false).
Proof.
  unfold load_europe_map.
  destruct (first_existing path_exists potential_paths) as [path |] eqn:Ep.
  - destruct (read_file path) as [e | europe] eqn:Er; [now left | right].
    exists path, europe. split; [exact Er |]. split; [reflexivity |].
    left. now apply first_existing_Some.
  - destruct (read_file natural_earth_url) as [e | europe] eqn:Er; [now left | right].
    exists natural_earth_url, europe. split; [exact Er |]. split; [reflexivity |].
    right. split; [reflexivity |]. now apply first_existing_None.
Qed.

(** X1.  [load_europe_map] always returns a map, and it is one of two
    kinds.  Either it is what was read from a candidate path that exists,
    or from the download address when no candidate exists, restricted to
    the rows whose name is in the list of European countries, in the order
    of the file and with no listed row dropped; or it is the fallback map
    with its single row.  The two kinds cannot be confused: the map has a
    row named [Europe] exactly when it is the fallback map, since that name
    is not in the list. *)
Theorem europe_map_listed_or_fallback (path_exists : string -> bool)
    (read_file : string -> string + list Country.t) :
  let rows := snd (load_europe_map path_exists read_file) in
  (rows = snd create_simple_europe_map \/
   exists source europe,
     read_file source = inr europe /\
     (In source potential_paths /\ path_exists source = true \/
      source = natural_earth_url /\
      forall path, In path potential_paths -> path_exists path = false) /\
     rows = List.filter (fun row => isin european_countries (Country.NAME row)) europe /\
     sublist rows europe /\
     (forall row, In row rows <-> In row europe /\ In (Country.NAME row) european_countries)) /\
  ((exists row, In row rows /\ Country.NAME row = "Europe"%string) <->
   rows = snd create_simple_europe_map).
Proof.
  cbv zeta. split.
  - destruct (load_europe_map_cases path_exists read_file)
      as [Hs | (source & europe & Hr & -> & Hsrc)]; [now left | right].
    exists source, europe. split; [exact Hr |]. split; [exact Hsrc |].
    split; [reflexivity |]. split.
    + apply filter_sublist.
    + intros row. apply only_european_In.
  - split.
    + intros (row & Hin & Hname).
      destruct (load_europe_map_cases path_exists read_file)
        as [Hs | (source & europe & _ & Hrows & _)]; [exact Hs | exfalso].
      rewrite Hrows in Hin. apply only_european_In in Hin as [_ Hlisted].
      rewrite Hname in Hlisted. apply isin_In in Hlisted. discriminate.
    + intros ->. eexists. split; [now left | reflexivity].
Qed.

(** X2.  As soon as one of the candidate paths exists, the download
    address is never read: what the function prints and returns depends on
    the candidate files only.  The first candidate that exists decides
    alone; when it cannot be read, the function reports the error and
    returns the fallback map, whatever the later candidates or the download
    would have given. *)
Theorem existing_file_rules_out_download (path_exists : string -> bool)
    (read_file read_file' : string -> string + list Country.t) :
  (exists path, In path potential_paths /\ path_exists path = true) ->
  (forall path, In path potential_paths -> read_file path = read_file' path) ->
  load_europe_map path_exists read_file = load_europe_map path_exists read_file' /\
  exists first,
    first_existing path_exists potential_paths = Some first /\
    forall e,
      read_file first = inl e ->
      load_europe_map path_exists read_file' =
        ([("Found shapefile at: " ++ first)%string;
          ("Error loading Europe map: " ++ e)%string;
          "Creating simplified Europe map as fallback..."%string],
         snd create_simple_europe_map).
Proof.
  intros (path & Hin & Hex) Hsame.
  destruct (first_existing path_exists potential_paths) as [first |] eqn:Ef.
  - pose proof (first_existing_Some _ _ _ Ef) as [Hfirst _].
    assert (load_europe_map path_exists read_file = load_europe_map path_exists read_file')
      as Heq.
    { unfold load_europe_map. rewrite Ef, (Hsame first Hfirst). reflexivity. }
    split; [exact Heq |].
    exists first. split; [reflexivity |]. intros e He.
    rewrite <- Heq. unfold load_europe_map. rewrite Ef, He. reflexivity.
  - pose proof (proj1 (first_existing_None _ _) Ef path Hin). congruence.
Qed.

(** X2 on a tree where only the third candidate exists and is not a
    shapefile: the fallback map is returned although the download would
    have succeeded. *)
Lemma existing_file_rules_out_download_witness :
  load_europe_map Example.only_parent_dir Example.download_only =
    (["Found shapefile at: ../ne_50m_admin_0_countries.shp"%string;
      "Error loading Europe map: not recognized as a supported file format"%string;
      "Creating simplified Europe map as fallback..."%string],
     snd create_simple_europe_map) /\
  Example.download_only natural_earth_url = inr [Example.germany; Example.atlantis].
Proof.
  split; [| reflexivity].
  destruct (existing_file_rules_out_download Example.only_parent_dir
              Example.unreadable Example.download_only) as [_ (first & Hfirst & Hfall)].
  - exists "../ne_50m_admin_0_countries.shp"%string. split; [| reflexivity].
    right. right. now left.
  - intros path [<- | [<- | [<- | []]]]; reflexivity.
  - injection Hfirst as <-. apply Hfall. reflexivity.
Defined.

(** The label of a year that has a painting is one of the three
    components. *)
Lemma dominant_defined (year_data : list Painting.t) :
  year_data <> [] ->
  exists label, dominant year_data = Some label /\ In label ["Red"; "Green"; "Blue"]%string.
Proof.
  destruct year_data as [| p yd]; [congruence |]. intros _.
  unfold dominant, mean. cbn [List.map]. unfold dominant_of. cbn [isnan negb andb].
  repeat match goal with
         | |- context [if ?c then _ else _] => destruct c
         end;
    eexists; (split; [reflexivity |]); cbn; auto.
Qed.

(** ** More on one call *)

Lemma of_year_idem (year : Z) (painting_data : list Painting.t) :
  of_year year (of_year year painting_data) = of_year year painting_data.
Proof.
  unfold of_year. induction painting_data as [| p l IH]; cbn; [reflexivity |].
  destruct (Painting.year p =? year)%Z eqn:E; cbn; [rewrite E, IH |]; auto.
Qed.

(** The row at any index of the returned frame. *)
Lemma frame_of_row (distance : point -> point -> Q)
    (painting_data : list Painting.t) (year : Z) (regions : list Country.t)
    (idx : nat) (country : Country.t) :
  regions !! idx = Some country ->
  fst (frame_of distance painting_data year regions) !! idx =
    Some (Country.with_color
            (written (color_country distance (of_year year painting_data) country)) country).
Proof.
  intros Hidx. unfold frame_of.
  destruct (of_year year painting_data) as [| p yd]; cbn [fst];
    rewrite list_lookup_fmap, Hidx; cbn; [| reflexivity].
  unfold color_country. destruct (Country.centroid country); reflexivity.
Qed.

(** X4.  A call reads the paintings of its year and no others: it gives
    the same result, in every world, on the whole table and on the table
    cut down to the rows of the year. *)
Theorem paintings_of_other_years_are_ignored (distance : point -> point -> Q)
    (painting_data : list Painting.t) (europe_gdf : nat) (year : Z) (w : world) :
  interpolate_colors_to_countries distance painting_data europe_gdf year w =
  interpolate_colors_to_countries distance (of_year year painting_data) europe_gdf year w.
Proof.
  unfold interpolate_colors_to_countries. cbv zeta. rewrite of_year_idem. reflexivity.
Qed.

(** ** The gray and the computed colours *)

(** [format(n, '02x')] writes lower-case digits: no byte starts with the
    capital [C] of the gray. *)
Lemma format_02x_lower :
  forallb (fun n => match format_02x (Z.of_nat n) with
                    | String c _ => negb (Ascii.eqb c "C")
                    | EmptyString => false
                    end) (seq 0 256) = true.
Proof. vm_compute. reflexivity. Qed.

Lemma hex2_first (x : Q) :
  (0 <= x <= 1)%Q -> exists c rest, Idw.hex2 x = String c rest /\ c <> "C"%char.
Proof.
  intros Hx. unfold Idw.hex2.
  assert (0 <= Py.round (x * 255) <= 255) as Hn.
  { apply PyFacts.round_bounds.
    change (inject_Z 0) with 0%Q. change (inject_Z 255) with 255%Q. lra. }
  pose proof format_02x_lower as H. rewrite forallb_forall in H.
  specialize (H (Z.to_nat (Py.round (x * 255)))).
  rewrite Z2Nat.id in H by lia.
  destruct (format_02x (Py.round (x * 255))) as [| c rest].
  - discriminate H. apply in_seq. lia.
  - exists c, rest. split; [reflexivity |]. intros ->.
    discriminate H. apply in_seq. lia.
Qed.

(** A colour computed from paintings is never the string of the gray. *)
Lemma idw_color_not_gray (selected : list (Q * Painting.t)) :
  Idw.color selected <> default_gray.
Proof.
  unfold Idw.color, default_gray.
  destruct (hex2_first (Idw.clamp (Idw.average Painting.red_pct selected))
              (idw_clamp_unit _)) as (c & rest & -> & Hc).
  cbn [String.append]. intros [= ->]. now apply Hc.
Qed.

(** X8.  In the frame a call returns, the string [#CCCCCC] marks exactly
    the rows for which nothing was computed: a row carries it if and only
    if the country has no geometry or the year has no painting.  A colour
    computed from paintings is written with lower-case digits, so even a
    computed gray differs from it as a string. *)
Theorem gray_marks_missing_data (distance : point -> point -> Q)
    (painting_data : list Painting.t) (europe_gdf : nat) (year : Z)
    (w : world) (regions : list Country.t) :
  (forall a b, (0 <= distance a b)%Q) ->
  frames w !! europe_gdf = Some regions ->
  exists frame dominant_color,
    returns_frame (interpolate_colors_to_countries distance painting_data europe_gdf year w)
      frame dominant_color /\
    forall idx country,
      regions !! idx = Some country ->
      exists row c,
        frame !! idx = Some row /\
        Country.color row = Some c /\
        (c = "#CCCCCC"%string <->
         Country.centroid country = None \/ of_year year painting_data = []).
Proof.
  intros Hdist He.
  eexists _, _. split; [apply (interpolate_returns distance _ _ _ _ _ He) |].
  intros idx country Hidx.
  eexists _, _. split; [apply frame_of_row; exact Hidx |].
  split; [reflexivity |].
  destruct (Country.centroid country) as [a |] eqn:Ha.
  - destruct (of_year year painting_data) as [| p yd] eqn:Ey.
    + unfold color_country. rewrite Ha. cbn. split; auto.
    + rewrite (color_country_idw distance Hdist (p :: yd) country a Ha) by discriminate.
      cbn [written]. split.
      * intros E. exfalso. exact (idw_color_not_gray _ E).
      * intros [? | ?]; discriminate.
  - unfold color_country. rewrite Ha. cbn. split; auto.
Qed.

(** X8 on the example: the gray painting of 1990 lies on Germany's
    centroid and colours it [#808080]; Atlantis, without geometry, is
    [#CCCCCC]. *)
Lemma gray_marks_missing_data_witness :
  exists frame dominant_color,
    returns_frame
      (interpolate_colors_to_countries planar_distance Example.paintings 0%nat 1990
         (Example.world_with Example.countries))
      frame dominant_color /\
    List.map Country.color frame = [Some "#808080"%string; Some "#CCCCCC"%string].
Proof.
  destruct (gray_marks_missing_data planar_distance Example.paintings 0%nat 1990
              (Example.world_with Example.countries) Example.countries
              planar_distance_nonneg eq_refl)
    as (frame & dominant_color & Hret & _).
  exists frame, dominant_color. split; [exact Hret |].
  destruct Hret as (l & w' & Hrun & Hl).
  vm_compute in Hrun. injection Hrun as <- <- <-.
  vm_compute in Hl. injection Hl as <-. reflexivity.
Defined.

(** ** The fallback map in a call *)

(** X3.  Without a shapefile and without network, the map is the fallback
    map, and a call for a year that has a painting returns a frame with
    the single row [Europe], whose centroid is the middle of the outline,
    the point (15, 55).  Since that row has a geometry it receives a colour
    computed from the paintings, a colour string that is not the default
    gray, and the label of the dominant component is present. *)
Theorem offline_map_gets_one_color (path_exists : string -> bool)
    (read_file : string -> string + list Country.t)
    (distance : point -> point -> Q)
    (painting_data : list Painting.t) (europe_gdf : nat) (year : Z) (w : world) :
  (forall source, exists e, read_file source = inl e) ->
  (forall a b, (0 <= distance a b)%Q) ->
  frames w !! europe_gdf = Some (snd (load_europe_map path_exists read_file)) ->
  (exists painting, In painting painting_data /\ Painting.year painting = year) ->
  exists label c,
    In label ["Red"; "Green"; "Blue"]%string /\
    is_hex_color c = true /\
    c <> "#CCCCCC"%string /\
    returns_frame (interpolate_colors_to_countries distance painting_data europe_gdf year w)
      [ {| Country.NAME := "Europe";
           Country.centroid := Some (Point 15 55);
           Country.color := Some c |} ]
      (Some label).
Proof.
  intros Hoff Hdist He Hyear.
  assert (snd (load_europe_map path_exists read_file) = snd create_simple_europe_map) as Hmap.
  { destruct (load_europe_map_cases path_exists read_file)
      as [Hs | (source & europe & Hr & _)]; [exact Hs |].
    destruct (Hoff source) as [e Hsrc]. congruence. }
  rewrite Hmap, simple_map_rows in He.
  pose proof (of_year_cons year painting_data Hyear) as Hne.
  destruct (dominant_defined _ Hne) as (label & Hlabel & Hin).
  exists label, (Idw.color (nearest distance (Point 15 55) (of_year year painting_data))).
  split; [exact Hin |].
  pose proof (interpolate_returns distance painting_data europe_gdf year w _ He) as Hret.
  unfold frame_of in Hret.
  destruct (of_year year painting_data) as [| p yd] eqn:Ey; [congruence |].
  cbn [fst snd fmap list_fmap colored_indices] in Hret.
  unfold paint in Hret.
  pose proof (written_color distance (p :: yd)
                {| Country.NAME := "Europe"; Country.centroid := Some (Point 15 55);
                   Country.color := None |}) as Hhex.
  rewrite (color_country_idw distance Hdist (p :: yd)
             {| Country.NAME := "Europe"; Country.centroid := Some (Point 15 55);
                Country.color := None |} (Point 15 55) eq_refl Hne) in Hret, Hhex.
  cbn [has_color written app] in Hret, Hhex. rewrite Hlabel in Hret.
  split; [exact Hhex |]. split; [apply idw_color_not_gray | exact Hret].
Qed.

(** X3 on the example table: offline, the frame of the year 2000 has the
    one row [Europe], coloured and labelled. *)
Lemma offline_map_gets_one_color_witness :
  exists label c,
    c <> "#CCCCCC"%string /\
    returns_frame
      (interpolate_colors_to_countries planar_distance Example.paintings 0%nat 2000
         (Example.world_with (snd (load_europe_map Example.no_file Example.unreadable))))
      [ {| Country.NAME := "Europe"; Country.centroid := Some (Point 15 55);
           Country.color := Some c |} ]
      (Some label).
Proof.
  destruct (offline_map_gets_one_color Example.no_file Example.unreadable planar_distance
              Example.paintings 0%nat 2000
              (Example.world_with (snd (load_europe_map Example.no_file Example.unreadable))))
    as (label & c & _ & _ & Hgray & Hret).
  - intros source. eexists. reflexivity.
  - exact planar_distance_nonneg.
  - reflexivity.
  - exists Example.green_painting. split; [now left | reflexivity].
  - exists label, c. split; assumption.
Defined.

(** ** The saving loop under any drawing *)

Section AnyDrawing.
Variable distance : point -> point -> Q.
Variable draw : string -> figure -> option string.
Variable painting_data : list Painting.t.
Variable europe_gdf : nat.
Variable regions : list Country.t.

(** The loop from any position: every turn ends, prints its line and
    leaves its file if the drawing succeeded; each turn allocates one
    frame. *)
Lemma save_frames_any (years : list Z) :
  forall (k : nat) (w : world),
    frames w !! europe_gdf = Some regions ->
    exists w',
      for_each (zip (seq k (length years)) years) tt
               (save_frame distance draw painting_data europe_gdf) w = Some (tt, w') /\
      frames w' !! europe_gdf = Some regions /\
      (forall l df, frames w !! l = Some df -> frames w' !! l = Some df) /\
      size (frames w') = (size (frames w) + length years)%nat /\
      stdout w' = stdout w ++
                  List.map (line_of distance draw painting_data regions)
                           (zip (seq k (length years)) years) /\
      files w' = files w ++
                 flat_map (file_of distance draw painting_data regions)
                          (zip (seq k (length years)) years).
Proof.
  induction years as [| year years IH]; intros k w He.
  - exists w. cbn. rewrite !app_nil_r. repeat split; auto.
  - cbn [length seq zip zip_with for_each List.map flat_map].
    bind_step.
    rewrite (save_frame_run distance draw painting_data europe_gdf regions k year w He).
    set (w1 := {| frames := _; stdout := _; files := _ |}).
    assert (frames w !! fresh (dom (frames w)) = None) as Hfresh.
    { apply not_elem_of_dom, is_fresh. }
    assert (forall l df, frames w !! l = Some df -> frames w1 !! l = Some df) as Hkeep.
    { intros l df Hl. subst w1. cbn [frames].
      rewrite lookup_insert_ne; [exact Hl | congruence]. }
    destruct (IH (S k) w1 (Hkeep _ _ He))
      as (w' & Hrun & He' & Hkeep' & Hsize & Hout & Hfiles).
    exists w'. split; [exact Hrun |]. split; [exact He' |].
    split; [intros l df Hl; apply Hkeep', Hkeep, Hl |].
    subst w1. cbn [frames stdout files] in Hsize, Hout, Hfiles.
    rewrite map_size_insert_None in Hsize by exact Hfresh.
    split; [cbn [length]; lia |].
    rewrite Hout, Hfiles, <- !app_assoc. split; reflexivity.
Qed.

End AnyDrawing.

(** X9.  An exception while a frame is drawn or saved never stops the
    driver.  On a table that is not empty the loop over the years runs to
    its end whatever the drawing does, and the files it leaves are the
    frames of exactly the years whose drawing succeeded, in ascending order
    of the years.  Every turn allocates one frame, and no frame that
    existed before is changed. *)
Theorem a_failed_frame_does_not_stop_the_loop (distance : point -> point -> Q)
    (draw : string -> figure -> option string)
    (painting_data : list Painting.t) (europe_gdf : nat)
    (w : world) (regions : list Country.t) :
  frames w !! europe_gdf = Some regions ->
  painting_data <> [] ->
  let years := years_of painting_data in
  let turns := zip (seq 0 (length years)) years in
  exists w',
    animate_color_usage distance draw painting_data europe_gdf w = Some (tt, w') /\
    files w' = files w ++ flat_map (file_of distance draw painting_data regions) turns /\
    (forall l df, frames w !! l = Some df -> frames w' !! l = Some df) /\
    size (frames w') = (size (frames w) + length years)%nat.
Proof.
  intros He Hne. cbv zeta. unfold animate_color_usage.
  pose proof (proj1 (years_of_nil painting_data)) as Hyears.
  destruct (years_of painting_data) as [| y ys]; [now specialize (Hyears eq_refl) |].
  bind_step. cbn [print].
  set (w0 := {| frames := frames w; stdout := _; files := files w |}).
  destruct (save_frames_any distance draw painting_data europe_gdf regions (y :: ys) 0 w0 He)
    as (w' & Hrun & _ & Hkeep & Hsize & _ & Hfiles).
  bind_step. rewrite Hrun. cbn [print].
  eexists. split; [reflexivity |]. cbn [frames stdout files].
  subst w0. cbn [frames stdout files] in Hkeep, Hsize, Hfiles.
  repeat split; assumption.
Qed.

(** X9 on the example table when the disk is full for the first frame:
    the frame of 1990 is missing, the frame of 2000 is saved. *)
Lemma a_failed_frame_does_not_stop_the_loop_witness :
  exists w',
    animate_color_usage planar_distance Example.refused_1990 Example.paintings 0%nat
      (Example.world_with Example.countries) = Some (tt, w') /\
    List.map fst (files w') = ["animation_frames/frame_001_2000.png"%string].
Proof.
  destruct (a_failed_frame_does_not_stop_the_loop planar_distance Example.refused_1990
              Example.paintings 0%nat (Example.world_with Example.countries) Example.countries
              eq_refl)
    as (w' & Hrun & Hfiles & _).
  - discriminate.
  - exists w'. split; [exact Hrun |].
    rewrite Hfiles. reflexivity.
Defined.

(** ** More on the ingestion *)

Lemma normalize_column_unit (xs : list Q) :
  Forall (fun x => (0 <= x <= 1)%Q) xs -> normalize_column xs = xs.
Proof.
  intros Hall. unfold normalize_column.
  rewrite above_one_false by (eapply List.Forall_impl; [| exact Hall]; cbn; intros; lra).
  induction Hall as [| x xs Hx _ IH]; cbn; [reflexivity |].
  now rewrite clip_id, IH.
Qed.

Lemma normalize_column_range (xs : list Q) :
  Forall (fun x => (0 <= x <= 1)%Q) (normalize_column xs).
Proof.
  unfold normalize_column. apply List.Forall_forall. intros y Hy.
  apply in_map_iff in Hy as (x & <- & _). apply clip_unit.
Qed.

Lemma fillna_unit (cell : option Q) : unit_or_missing cell -> (0 <= fillna 0.33 cell <= 1)%Q.
Proof. destruct cell as [x |]; cbn; [auto | lra]. Qed.

(** X10.  A table whose colour cells are already on the scale of 0 to 1
    is read as it is: no column is divided, no cell is clipped, and every
    colour cell of the result is the cell of the file, or 0.33 where the
    file has none.  Normalising is idempotent: on a column that went
    through it once, a second pass changes nothing. *)
Theorem unit_scale_table_is_kept (attempts : list (option (list Csv.t)))
    (random : nat -> Q) (data : list Csv.t) :
  first_readable attempts = Some data ->
  (forall row, In row data -> on_unit_scale row) ->
  List.map Painting.red_pct (load_painting_data attempts random)
    = List.map (fun row => fillna 0.33 (Csv.red_pct row)) data /\
  List.map Painting.green_pct (load_painting_data attempts random)
    = List.map (fun row => fillna 0.33 (Csv.green_pct row)) data /\
  List.map Painting.blue_pct (load_painting_data attempts random)
    = List.map (fun row => fillna 0.33 (Csv.blue_pct row)) data /\
  (forall column, normalize_column (normalize_column column) = normalize_column column).
Proof.
  intros Hread Hunit.
  assert (forall cell : Csv.t -> option Q,
            (forall row, In row data -> unit_or_missing (cell row)) ->
            normalize_column (List.map (fun row => fillna 0.33 (cell row)) data)
            = List.map (fun row => fillna 0.33 (cell row)) data) as Hcol.
  { intros cell Hcell. apply normalize_column_unit.
    apply List.Forall_forall. intros x Hx.
    apply in_map_iff in Hx as (row & <- & Hrow). apply fillna_unit. now apply Hcell. }
  unfold load_painting_data. rewrite Hread. unfold sanitize.
  rewrite !List.map_map. cbn [Painting.red_pct Painting.green_pct Painting.blue_pct].
  split; [| split; [| split]].
  - etransitivity; [| apply (Hcol Csv.red_pct); intros row Hrow; apply (Hunit row Hrow)].
    rewrite normalize_column_cells, List.map_map. reflexivity.
  - etransitivity; [| apply (Hcol Csv.green_pct); intros row Hrow; apply (Hunit row Hrow)].
    rewrite normalize_column_cells, List.map_map. reflexivity.
  - etransitivity; [| apply (Hcol Csv.blue_pct); intros row Hrow; apply (Hunit row Hrow)].
    rewrite normalize_column_cells, List.map_map. reflexivity.
  - intros column. apply normalize_column_unit, normalize_column_range.
Qed.

(** X10 on a table read with the second encoding. *)
Lemma unit_scale_table_is_kept_witness :
  List.map Painting.red_pct (load_painting_data [None; Some Example.unit_table] Example.draw)
    = [0.2; 0]%Q /\
  List.map Painting.green_pct (load_painting_data [None; Some Example.unit_table] Example.draw)
    = [0.33; 0.75]%Q.
Proof.
  destruct (unit_scale_table_is_kept [None; Some Example.unit_table] Example.draw
              Example.unit_table eq_refl) as (Hr & Hg & _).
  - intros row [<- | [<- | []]]; repeat split; cbn; lra.
  - split; [exact Hr | exact Hg].
Defined.

(** X11.  One cell above 1 puts the whole column on the scale of 0 to
    255: every cell is divided by 255, a negative cell becomes 0 and a cell
    above 255 becomes 1.  A cell that was on the scale of 0 to 1 thus ends
    at [x / 255], at most [1 / 255]. *)
Theorem one_cell_above_one_divides_the_column (xs : list Q) :
  (exists x, In x xs /\ (1 < x)%Q) ->
  normalize_column xs =
    List.map (fun x => if Py.ltb x 0 then 0 else if Py.ltb 255 x then 1 else x / 255)%Q xs /\
  forall idx x,
    xs !! idx = Some x ->
    (0 <= x <= 1)%Q ->
    normalize_column xs !! idx = Some (x / 255)%Q /\ (x / 255 <= 1 / 255)%Q.
Proof.
  intros (big & Hin & Hbig).
  assert (above_one (column_max xs) = true) as Habove.
  { destruct (column_max_ge xs big Hin) as (m & -> & Hm). cbn. py_compare. lra. }
  assert (normalize_column xs =
          List.map (fun x => if Py.ltb x 0 then 0 else if Py.ltb 255 x then 1 else x / 255)%Q xs)
    as Hcol.
  { unfold normalize_column. rewrite Habove, List.map_map.
    apply map_ext. intros x. unfold clip.
    destruct (ltb_div_255 x) as [-> ->]. reflexivity. }
  split; [exact Hcol |].
  intros idx x Hidx [H0 H1].
  split; [| unfold Qdiv; change (/ 255)%Q with (1 # 255)%Q; lra].
  rewrite Hcol, list_lookup_fmap, Hidx. cbn. f_equal.
  destruct (Py.ltb x 0) eqn:E0; [py_compare; lra |].
  destruct (Py.ltb 255 x) eqn:E1; [py_compare; lra | reflexivity].
Qed.

(** X11 on a column of a half and one and a half. *)
Lemma one_cell_above_one_divides_the_column_witness :
  normalize_column [0.5; 1.5]%Q = [0.5 / 255; 1.5 / 255]%Q.
Proof.
  destruct (one_cell_above_one_divides_the_column [0.5; 1.5]%Q) as [Hcol _].
  - exists 1.5%Q. split; [right; now left | reflexivity].
  - exact Hcol.
Defined.

Lemma first_readable_app (failed rest : list (option (list Csv.t))) :
  Forall (fun attempt => attempt = None) failed ->
  first_readable (failed ++ rest) = first_readable rest.
Proof.
  induction 1 as [| attempt failed -> _ IH]; cbn; [reflexivity | exact IH].
Qed.

(** X12.  The encodings are tried in order and the first one that can be
    read decides: the table is what that attempt returned, made sound,
    whatever the later encodings would have given and whatever the random
    generator draws.  The generated table is returned when every attempt
    fails. *)
Theorem first_readable_encoding_decides (failed later : list (option (list Csv.t)))
    (data : list Csv.t) (random : nat -> Q) :
  Forall (fun attempt => attempt = None) failed ->
  load_painting_data (failed ++ Some data :: later) random = sanitize data /\
  load_painting_data failed random = sample_data random.
Proof.
  intros Hfailed. unfold load_painting_data. split.
  - now rewrite first_readable_app.
  - rewrite <- (app_nil_r failed). now rewrite first_readable_app.
Qed.

(** X12 when the first two encodings fail. *)
Lemma first_readable_encoding_decides_witness :
  load_painting_data [None; None; Some Example.table; Some Example.unit_table] Example.draw
    = sanitize Example.table.
Proof.
  destruct (first_readable_encoding_decides [None; None] [Some Example.unit_table]
              Example.table Example.draw) as [Hload _].
  - repeat constructor.
  - exact Hload.
Defined.

(** The years of the generated table, whatever the draws. *)
Lemma sample_data_years (random : nat -> Q) :
  years_of (sample_data random) = List.map (fun k => 1900 + 5 * Z.of_nat k) (seq 0 21).
Proof. reflexivity. Qed.

(** X13.  When no encoding can be read, the driver runs on the generated
    table: whatever the draws, its years are 1900, 1905, ..., 2000, each
    with the five cities, and, drawing being successful, exactly the 21
    files [frame_000_1900.png] to [frame_020_2000.png] are written, in
    that order. *)
Theorem generated_table_gives_21_frames (distance : point -> point -> Q)
    (draw : string -> figure -> option string)
    (attempts : list (option (list Csv.t))) (random : nat -> Q)
    (europe_gdf : nat) (w : world) (regions : list Country.t) :
  Forall (fun attempt => attempt = None) attempts ->
  (forall path fig, draw path fig = None) ->
  frames w !! europe_gdf = Some regions ->
  let painting_data := load_painting_data attempts random in
  years_of painting_data = List.map (fun k => 1900 + 5 * Z.of_nat k) (seq 0 21) /\
  (forall year, In year (years_of painting_data) ->
                List.map (fun painting => (Painting.latitude painting, Painting.longitude painting))
                         (of_year year painting_data) = cities) /\
  exists w',
    animate_color_usage distance draw painting_data europe_gdf w = Some (tt, w') /\
    List.map fst (files w') =
      List.map fst (files w) ++
      List.map (fun k => frame_path k (1900 + 5 * Z.of_nat k)) (seq 0 21).
Proof.
  intros Hfailed Hdraw He. cbv zeta.
  assert (load_painting_data attempts random = sample_data random) as ->.
  { unfold load_painting_data.
    rewrite <- (app_nil_r attempts). now rewrite first_readable_app. }
  split; [apply sample_data_years |]. split.
  - rewrite sample_data_years. intros year Hin.
    cbv [List.map seq] in Hin.
    repeat (destruct Hin as [<- | Hin]; [reflexivity |]). destruct Hin.
  - destruct (animate_run distance draw (sample_data random) europe_gdf regions w Hdraw He)
      as (w' & Hrun & _ & _ & Hfiles).
    { rewrite sample_data_years. discriminate. }
    exists w'. split; [exact Hrun |].
    rewrite Hfiles, List.map_app, List.map_map, sample_data_years. reflexivity.
Qed.

(** X13 on the example world, with no encoding readable. *)
Lemma generated_table_gives_21_frames_witness :
  exists w',
    animate_color_usage planar_distance Example.drawn
      (load_painting_data [None; None; None; None] Example.draw) 0%nat
      (Example.world_with Example.countries) = Some (tt, w') /\
    length (files w') = 21%nat /\
    List.map fst (firstn 2 (files w')) =
      ["animation_frames/frame_000_1900.png"; "animation_frames/frame_001_1905.png"]%string.
Proof.
  destruct (generated_table_gives_21_frames planar_distance Example.drawn
              [None; None; None; None] Example.draw 0%nat
              (Example.world_with Example.countries) Example.countries)
    as (_ & _ & w' & Hrun & Hfiles).
  - repeat constructor.
  - reflexivity.
  - reflexivity.
  - exists w'. split; [exact Hrun |].
    split.
    + rewrite <- (length_map fst), Hfiles. reflexivity.
    + rewrite <- firstn_map, Hfiles. reflexivity.
Defined.

(** ** The names of the files *)

Lemma every_char_app (ok : ascii -> bool) (s1 s2 : string) :
  every_char ok (s1 ++ s2)%string = every_char ok s1 && every_char ok s2.
Proof.
  induction s1 as [| c s1 IH]; [reflexivity |].
  change (ok c && every_char ok (s1 ++ s2)%string = ok c && every_char ok s1 && every_char ok s2).
  now rewrite IH, andb_assoc.
Qed.

Lemma every_char_impl (ok ok' : ascii -> bool) (s : string) :
  (forall c, ok c = true -> ok' c = true) ->
  every_char ok s = true -> every_char ok' s = true.
Proof.
  intros Himpl. induction s as [| c s IH]; cbn; [reflexivity |].
  intros H. apply andb_prop in H as [Hc Hs].
  now rewrite (Himpl c Hc), IH.
Qed.

Lemma append_inv_head (s a b : string) : (s ++ a)%string = (s ++ b)%string -> a = b.
Proof. induction s as [| c s IH]; cbn; [auto | intros [= H]; auto]. Qed.

(** Two strings that agree up to and after a separator which neither of
    the two fronts contains: the fronts agree, and so do the rests. *)
Lemma split_at_separator (sep : ascii) (d1 d2 r1 r2 : string) :
  every_char (fun c => negb (Ascii.eqb c sep)) d1 = true ->
  every_char (fun c => negb (Ascii.eqb c sep)) d2 = true ->
  (d1 ++ String sep r1)%string = (d2 ++ String sep r2)%string ->
  d1 = d2 /\ r1 = r2.
Proof.
  revert d2. induction d1 as [| c d1 IH]; intros [| c' d2]; cbn; intros H1 H2 E.
  - injection E as ->. auto.
  - injection E as <- _. now rewrite Ascii.eqb_refl in H2.
  - injection E as -> _. now rewrite Ascii.eqb_refl in H1.
  - injection E as <- E.
    apply andb_prop in H1 as [_ H1]. apply andb_prop in H2 as [_ H2].
    destruct (IH d2 H1 H2 E) as [-> ->]. auto.
Qed.

Lemma string_of_uint_digits (d : Decimal.uint) :
  every_char is_decimal_digit (NilEmpty.string_of_uint d) = true.
Proof. induction d; cbn [NilEmpty.string_of_uint every_char]; auto. Qed.

Lemma nilzero_digits (d : Decimal.uint) :
  every_char is_decimal_digit (NilZero.string_of_uint d) = true.
Proof. destruct d; try reflexivity; apply (string_of_uint_digits (_ _)). Qed.

Lemma concat_zeros (n : nat) :
  String.concat "" (repeat "0"%string (S n)) = String "0" (String.concat "" (repeat "0"%string n)).
Proof. destruct n; reflexivity. Qed.

Lemma format_03d_digits (i : nat) : every_char is_decimal_digit (format_03d i) = true.
Proof.
  unfold format_03d, zfill. rewrite every_char_app, nilzero_digits, andb_true_r.
  induction (3 - _)%nat as [| n IH]; [reflexivity |].
  rewrite concat_zeros. cbn [every_char]. now rewrite IH.
Qed.

Lemma format_d_chars (z : Z) :
  every_char (fun c => is_decimal_digit c || Ascii.eqb c "-") (format_d z) = true.
Proof.
  assert (forall d, every_char (fun c => is_decimal_digit c || Ascii.eqb c "-")
                               (NilZero.string_of_uint d) = true) as Hd.
  { intros d. apply (every_char_impl is_decimal_digit); [| apply nilzero_digits].
    intros c ->. reflexivity. }
  unfold format_d. destruct (Z.to_int z) as [d | d]; cbn [NilZero.string_of_int every_char].
  - apply Hd.
  - now rewrite Hd.
Qed.

(** Reading back the index of a file name. *)
Lemma format_03d_read (i : nat) :
  option_map Nat.of_uint (NilEmpty.uint_of_string (format_03d i)) = Some i.
Proof.
  unfold format_03d, zfill.
  induction (3 - _)%nat as [| n IH].
  - change (String.concat "" (repeat "0" 0) ++ ?s)%string with s.
    rewrite <- (DecimalNat.Unsigned.of_to i) at 2.
    destruct (Nat.to_uint i) eqn:E; [reflexivity | ..];
      match goal with
      | |- context [NilZero.string_of_uint ?d] =>
          change (NilZero.string_of_uint d) with (NilEmpty.string_of_uint d)
      end;
      now rewrite NilEmpty.usu.
  - rewrite concat_zeros.
    change (String "0" ?a ++ ?b)%string with (String "0" (a ++ b)).
    cbn [NilEmpty.uint_of_string].
    destruct (NilEmpty.uint_of_string _) as [d |]; [| discriminate].
    cbn in IH |- *. exact IH.
Qed.

(** Reading back the year of a file name. *)
Lemma format_d_read (z : Z) :
  option_map Z.of_int (NilZero.int_of_string (format_d z)) = Some z.
Proof.
  unfold format_d. rewrite <- (DecimalZ.of_to z) at 2.
  destruct (Z.to_int z) as [[] | []] eqn:E; try reflexivity;
    rewrite NilZero.isi by discriminate; reflexivity.
Qed.

Lemma digit_not_underscore (c : ascii) :
  is_decimal_digit c = true -> negb (Ascii.eqb c "_") = true.
Proof. destruct (Ascii.eqb_spec c "_") as [-> |]; [discriminate | reflexivity]. Qed.

Lemma year_char_not_dot (c : ascii) :
  is_decimal_digit c || Ascii.eqb c "-" = true -> negb (Ascii.eqb c ".") = true.
Proof. destruct (Ascii.eqb_spec c ".") as [-> |]; [discriminate | reflexivity]. Qed.

Lemma frame_path_inj (i j : nat) (year year' : Z) :
  frame_path i year = frame_path j year' -> i = j /\ year = year'.
Proof.
  unfold frame_path. intros E. apply append_inv_head in E.
  change ("_" ++ ?s)%string with (String "_" s) in E.
  apply (split_at_separator "_") in E as [Ei Ey].
  - split.
    + pose proof (format_03d_read i) as Hi. rewrite Ei, format_03d_read in Hi. congruence.
    + change ".png"%string with (String "." "png") in Ey.
      apply (split_at_separator ".") in Ey as [Ey _].
      * pose proof (format_d_read year) as Hy. rewrite Ey, format_d_read in Hy. congruence.
      * apply (every_char_impl _ _ _ year_char_not_dot (format_d_chars year)).
      * apply (every_char_impl _ _ _ year_char_not_dot (format_d_chars year')).
  - apply (every_char_impl _ _ _ digit_not_underscore (format_03d_digits i)).
  - apply (every_char_impl _ _ _ digit_not_underscore (format_03d_digits j)).
Qed.

Section FileNames.
Variable distance : point -> point -> Q.
Variable draw : string -> figure -> option string.
Variable painting_data : list Painting.t.
Variable regions : list Country.t.

Lemma file_of_names (turns : list (nat * Z)) (path : string) :
  In path (List.map fst (flat_map (file_of distance draw painting_data regions) turns)) ->
  exists iy, In iy turns /\ path = frame_path (fst iy) (snd iy).
Proof.
  induction turns as [| [i year] turns IH]; cbn [flat_map List.map]; [intros [] |].
  rewrite List.map_app, in_app_iff. intros [H | H].
  - exists (i, year). split; [now left |].
    unfold file_of in H. destruct (drawing_of _ _ _ _ _); [destruct H |].
    destruct H as [<- | []]. reflexivity.
  - destruct (IH H) as (iy & Hin & E). exists iy. split; [now right | exact E].
Qed.

(** Turns with distinct indices write files with distinct names. *)
Lemma written_names_NoDup (turns : list (nat * Z)) :
  List.NoDup (List.map fst turns) ->
  List.NoDup (List.map fst (flat_map (file_of distance draw painting_data regions) turns)).
Proof.
  induction turns as [| [i year] turns IH]; cbn [flat_map List.map]; [constructor |].
  intros Hnd. inversion Hnd as [| ? ? Hnotin Hnd']; subst.
  rewrite List.map_app. unfold file_of at 1.
  destruct (drawing_of _ _ _ _ _); cbn [List.map app]; [now apply IH |].
  constructor; [| now apply IH].
  intros Hin. apply file_of_names in Hin as ([j year'] & Hin & E).
  cbn [fst snd saved_frame] in E. apply frame_path_inj in E as [-> _].
  apply Hnotin. apply in_map_iff. exists (j, year'). split; [reflexivity | exact Hin].
Qed.

End FileNames.

Lemma enumerate_indices {A : Type} (l : list A) (k : nat) :
  List.map fst (zip (seq k (length l)) l) = seq k (length l).
Proof.
  revert k. induction l as [| x l IH]; intros k; cbn; [reflexivity |].
  f_equal. apply IH.
Qed.

(** X14.  A file name determines the position and the year it was built
    from, so the files one run of the driver writes have pairwise distinct
    names: no frame overwrites another, whatever the table and whatever
    the drawing does. *)
Theorem no_frame_overwrites_another (distance : point -> point -> Q)
    (draw : string -> figure -> option string)
    (painting_data : list Painting.t) (europe_gdf : nat)
    (w : world) (regions : list Country.t) :
  frames w !! europe_gdf = Some regions ->
  (forall i j year year', frame_path i year = frame_path j year' -> i = j /\ year = year') /\
  exists w' written,
    animate_color_usage distance draw painting_data europe_gdf w = Some (tt, w') /\
    files w' = files w ++ written /\
    List.NoDup (List.map fst written).
Proof.
  intros He. split; [apply frame_path_inj |].
  unfold animate_color_usage.
  destruct (years_of painting_data) as [| y ys].
  - eexists _, []. cbn. rewrite app_nil_r. repeat split. constructor.
  - bind_step. cbn [print].
    set (w0 := {| frames := frames w; stdout := _; files := files w |}).
    destruct (save_frames_any distance draw painting_data europe_gdf regions (y :: ys) 0 w0 He)
      as (w' & Hrun & _ & _ & _ & _ & Hfiles).
    bind_step. rewrite Hrun. cbn [print].
    eexists _, _. split; [reflexivity |]. cbn [files].
    split; [exact Hfiles |].
    apply written_names_NoDup. rewrite enumerate_indices. apply List.seq_NoDup.
Qed.

(** X14 on the example table. *)
Lemma no_frame_overwrites_another_witness :
  exists w',
    animate_color_usage planar_distance Example.drawn Example.paintings 0%nat
      (Example.world_with Example.countries) = Some (tt, w') /\
    List.NoDup (List.map fst (files w')).
Proof.
  destruct (no_frame_overwrites_another planar_distance Example.drawn Example.paintings 0%nat
              (Example.world_with Example.countries) Example.countries eq_refl)
    as (_ & w' & written & Hrun & Hfiles & Hnd).
  exists w'. split; [exact Hrun |]. rewrite Hfiles. exact Hnd.
Defined.

(** ** The order of the rows of the table *)

Lemma of_year_perm (year : Z) (l l' : list Painting.t) :
  Permutation l l' -> Permutation (of_year year l) (of_year year l').
Proof.
  unfold of_year. induction 1 as [| x l l' _ IH | x y l | l l' l'' _ IH1 _ IH2]; cbn.
  - constructor.
  - destruct (_ =? _)%Z; [now constructor | assumption].
  - destruct (Painting.year x =? year)%Z, (Painting.year y =? year)%Z;
      try reflexivity. apply perm_swap.
  - etransitivity; eassumption.
Qed.

(** Two ascending lists with the same elements are the same list, as soon
    as equal keys belong to equal elements. *)
Lemma ascending_perm_eq (l1 : list (Q * Painting.t)) :
  forall l2,
    ascending by_distance l1 -> ascending by_distance l2 ->
    Permutation l1 l2 ->
    (forall x y, In x l1 -> In y l1 -> (fst x == fst y)%Q -> x = y) ->
    l1 = l2.
Proof.
  unfold ascending.
  induction l1 as [| x t1 IH]; intros l2 H1 H2 Hp Hinj.
  - apply Permutation_nil in Hp. now subst.
  - destruct l2 as [| y t2]; [apply Permutation_sym, Permutation_nil in Hp; discriminate |].
    inversion H1 as [| ? ? Ht1 Hx]; inversion H2 as [| ? ? Ht2 Hy]; subst.
    rewrite List.Forall_forall in Hx, Hy.
    assert (x = y) as <-.
    { assert (In y (x :: t1)) as Hyin
        by (apply (Permutation_in _ (Permutation_sym Hp)); now left).
      assert (In x (y :: t2)) as Hxin by (apply (Permutation_in _ Hp); now left).
      apply Hinj; [now left | exact Hyin |].
      assert (fst x <= fst y)%Q.
      { destruct Hyin as [<- | Hyin]; [lra |].
        specialize (Hx y Hyin). unfold by_distance in Hx. py_compare. exact Hx. }
      assert (fst y <= fst x)%Q.
      { destruct Hxin as [<- | Hxin]; [lra |].
        specialize (Hy x Hxin). unfold by_distance in Hy. py_compare. exact Hy. }
      lra. }
    f_equal. apply IH; [assumption | assumption | now apply Permutation_cons_inv in Hp |].
    intros a b Ha Hb. apply Hinj; now right.
Qed.

(** The selection does not depend on the order of the paintings when no
    two of them are equally far away. *)
Lemma nearest_perm (distance : point -> point -> Q) (a : point)
    (year_data year_data' : list Painting.t) :
  Permutation year_data year_data' ->
  (forall p q, In p year_data -> In q year_data ->
               (distance a (Painting.geometry p) == distance a (Painting.geometry q))%Q ->
               p = q) ->
  nearest distance a year_data = nearest distance a year_data'.
Proof.
  intros Hp Hinj. unfold nearest.
  assert (distances distance a year_data = distances distance a year_data') as ->;
    [| reflexivity].
  unfold distances. apply ascending_perm_eq.
  - apply sorted_ascending; [apply by_distance_asym | apply by_distance_ge_trans].
  - apply sorted_ascending; [apply by_distance_asym | apply by_distance_ge_trans].
  - rewrite !sorted_perm. now apply Permutation_map.
  - intros x y Hx Hy E.
    apply (Permutation_in _ (sorted_perm _ _)) in Hx, Hy.
    apply in_map_iff in Hx as (p & <- & Hp'). apply in_map_iff in Hy as (q & <- & Hq).
    cbn [with_distance fst] in E. now rewrite (Hinj p q Hp' Hq E).
Qed.

(** The rows of the frame are determined by the colours of the
    countries. *)
Lemma frame_rows_ext (distance : point -> point -> Q)
    (painting_data painting_data' : list Painting.t) (year : Z) (regions : list Country.t) :
  (of_year year painting_data = [] <-> of_year year painting_data' = []) ->
  (forall country,
     In country regions ->
     color_country distance (of_year year painting_data) country =
     color_country distance (of_year year painting_data') country) ->
  fst (frame_of distance painting_data year regions)
    = fst (frame_of distance painting_data' year regions).
Proof.
  intros Hnil Hcolor. unfold frame_of.
  destruct (of_year year painting_data) as [| p yd] eqn:E;
    destruct (of_year year painting_data') as [| p' yd'] eqn:E'.
  - reflexivity.
  - destruct Hnil as [Hnil _]. discriminate (Hnil eq_refl).
  - destruct Hnil as [_ Hnil]. discriminate (Hnil eq_refl).
  - cbn [fst]. clear Hnil E E'.
    induction regions as [| c l IH]; cbn; [reflexivity |].
    unfold paint at 1 3. rewrite (Hcolor c) by now left.
    f_equal. apply IH. intros country Hin. apply Hcolor. now right.
Qed.

(** X15.  The order of the rows of the table does not matter to the
    colours: when no two paintings of the year are equally far from the
    centroid of a country, a call on a table and a call on the same rows in
    any other order return the same frame.  (With equal distances the
    stable sort breaks the tie by the order of the table; and the label,
    which rests on sums over the whole column, may change with the order
    of the rows.) *)
Theorem order_of_the_table_does_not_matter (distance : point -> point -> Q)
    (painting_data painting_data' : list Painting.t) (europe_gdf : nat) (year : Z)
    (w : world) (regions : list Country.t) :
  Permutation painting_data painting_data' ->
  frames w !! europe_gdf = Some regions ->
  (forall country a p q,
     In country regions -> Country.centroid country = Some a ->
     In p (of_year year painting_data) -> In q (of_year year painting_data) ->
     (distance a (Painting.geometry p) == distance a (Painting.geometry q))%Q ->
     p = q) ->
  exists frame dominant_color dominant_color',
    returns_frame (interpolate_colors_to_countries distance painting_data europe_gdf year w)
      frame dominant_color /\
    returns_frame (interpolate_colors_to_countries distance painting_data' europe_gdf year w)
      frame dominant_color'.
Proof.
  intros Hp He Hinj.
  pose proof (of_year_perm year _ _ Hp) as Hyear.
  eexists _, _, _. split; [apply (interpolate_returns distance _ _ _ _ _ He) |].
  assert (fst (frame_of distance painting_data year regions)
          = fst (frame_of distance painting_data' year regions)) as ->;
    [| apply (interpolate_returns distance _ _ _ _ _ He)].
  apply frame_rows_ext.
  - split; intros E; rewrite E in Hyear.
    + now apply Permutation_nil in Hyear.
    + now apply Permutation_sym, Permutation_nil in Hyear.
  - intros country Hin.
    destruct (Country.centroid country) as [a |] eqn:Ha.
    + apply (color_country_nearest distance _ _ country a Ha).
      apply nearest_perm; [exact Hyear |].
      intros p q. now apply (Hinj country a).
    + unfold color_country. now rewrite Ha.
Qed.

(** X15 on the example table read backwards. *)
Lemma order_of_the_table_does_not_matter_witness :
  exists frame dominant_color dominant_color',
    returns_frame
      (interpolate_colors_to_countries planar_distance Example.paintings 0%nat 2000
         (Example.world_with Example.countries)) frame dominant_color /\
    returns_frame
      (interpolate_colors_to_countries planar_distance (rev Example.paintings) 0%nat 2000
         (Example.world_with Example.countries)) frame dominant_color'.
Proof.
  apply (order_of_the_table_does_not_matter planar_distance Example.paintings
           (rev Example.paintings) 0%nat 2000 (Example.world_with Example.countries)
           Example.countries).
  - apply Permutation_rev.
  - reflexivity.
  - intros country a p q Hc Ha Hp Hq E.
    destruct Hc as [<- | [<- | []]]; [| discriminate].
    injection Ha as <-.
    destruct Hp as [<- | [<- | []]]; destruct Hq as [<- | [<- | []]];
      try reflexivity; vm_compute in E; discriminate.
Defined.

(** ** Place and year of the ingested rows *)

Lemma trunc_whole (z : Z) : Py.trunc (inject_Z z) = z.
Proof. unfold Py.trunc. cbn. apply Z.quot_1_r. Qed.

(** X16.  Every row [load_painting_data] returns, read or generated, has
    its geometry at the point of its longitude and latitude.  A table that
    was read keeps its rows in number and order; a year that fits in 64
    bits is kept when it is a whole number and cut towards zero otherwise
    (beyond 64 bits [astype(int)] does not keep the number, and nothing is
    said here); a missing year becomes 2000 and a missing coordinate
    becomes 0.0. *)
Theorem ingested_rows_keep_place_and_year (attempts : list (option (list Csv.t)))
    (random : nat -> Q) :
  (forall painting,
     In painting (load_painting_data attempts random) ->
     Painting.geometry painting
       = Point (Painting.longitude painting) (Painting.latitude painting)) /\
  forall data,
    first_readable attempts = Some data ->
    length (load_painting_data attempts random) = length data /\
    forall idx row,
      data !! idx = Some row ->
      exists painting,
        load_painting_data attempts random !! idx = Some painting /\
        (forall z, Csv.year row = Some (inject_Z z) ->
                   - 2 ^ 63 <= z < 2 ^ 63 ->
                   Painting.year painting = z) /\
        (forall x, Csv.year row = Some x ->
                   - 2 ^ 63 <= Z.quot (Qnum x) (QDen x) < 2 ^ 63 ->
                   Painting.year painting = Z.quot (Qnum x) (QDen x)) /\
        (Csv.year row = None -> Painting.year painting = 2000) /\
        Painting.latitude painting = fillna 0.0 (Csv.latitude row) /\
        Painting.longitude painting = fillna 0.0 (Csv.longitude row).
Proof.
  split.
  - intros painting Hin. unfold load_painting_data in Hin.
    destruct (first_readable attempts) as [data |].
    + unfold sanitize in Hin. apply in_map_iff in Hin as (row & <- & _). reflexivity.
    + unfold sample_data in Hin. apply in_flat_map in Hin as (k & _ & Hin).
      apply in_map_iff in Hin as ([j [latitude longitude]] & <- & _). reflexivity.
  - intros data Hread. unfold load_painting_data. rewrite Hread. unfold sanitize.
    split; [apply length_map |].
    intros idx row Hidx. eexists. split; [rewrite list_lookup_fmap, Hidx; reflexivity |].
    cbn [Painting.year Painting.latitude Painting.longitude].
    split; [intros z -> _; apply trunc_whole |].
    split; [intros x -> _; reflexivity |].
    split; [intros ->; reflexivity |].
    split; reflexivity.
Qed.

(** * The code on binary64 numbers *)

(** ** Comparisons of floats *)

Lemma SFcompare_antisym (a b : spec_float) :
  SFcompare b a = option_map CompOpp (SFcompare a b).
Proof.
  destruct a as [sa | sa | | sa ma ea], b as [sb | sb | | sb mb eb]; cbn;
    try reflexivity; try (destruct sa; reflexivity); try (destruct sb; reflexivity);
    try (destruct sa, sb; reflexivity).
  assert (Pos.compare_cont Eq mb ma = CompOpp (Pos.compare_cont Eq ma mb)) as Hm
    by (symmetry; apply (Pos.compare_cont_antisym ma mb Eq)).
  destruct sa, sb; cbn; try reflexivity;
    rewrite (Z.compare_antisym ea eb); destruct (ea ?= eb)%Z; cbn; try reflexivity;
    rewrite Hm; reflexivity.
Qed.

Lemma SFcompare_refl (a : spec_float) : a <> S754_nan -> SFcompare a a = Some Eq.
Proof.
  destruct a as [sa | sa | | sa ma ea]; cbn; try congruence; intros _;
    try (destruct sa; reflexivity).
  destruct sa; rewrite Z.compare_refl, Pos.compare_cont_refl; reflexivity.
Qed.

Lemma SFcompare_nan (a b : spec_float) :
  SFcompare a b <> None -> a <> S754_nan /\ b <> S754_nan.
Proof. destruct a, b; cbn; intros H; split; congruence. Qed.

Module B64Facts.

Local Open Scope float_scope.

(** A float is a number when it equals itself. *)
Lemma number_spec (x : float) : B64.isnan x = false <-> Prim2SF x <> S754_nan.
Proof.
  unfold B64.isnan. rewrite FloatAxioms.eqb_spec. unfold SFeqb. split.
  - intros H E. rewrite E in H. discriminate.
  - intros H. now rewrite (SFcompare_refl _ H).
Qed.




Lemma lt_not_lt (x y : float) : PrimFloat.ltb x y = true -> PrimFloat.ltb y x = false.
Proof.
  rewrite !ltb_spec. unfold SFltb.
  rewrite (SFcompare_antisym (Prim2SF x) (Prim2SF y)).
  destruct (SFcompare (Prim2SF x) (Prim2SF y)) as [[] |]; cbn; congruence.
Qed.


Lemma lt_numbers (x y : float) :
  PrimFloat.ltb x y = true -> B64.isnan x = false /\ B64.isnan y = false.
Proof.
  rewrite ltb_spec, !number_spec. unfold SFltb. intros H.
  apply SFcompare_nan. destruct (SFcompare _ _); congruence.
Qed.

Lemma eq_numbers (x y : float) :
  PrimFloat.eqb x y = true -> B64.isnan x = false /\ B64.isnan y = false.
Proof.
  rewrite FloatAxioms.eqb_spec, !number_spec. unfold SFeqb. intros H.
  apply SFcompare_nan. destruct (SFcompare _ _); congruence.
Qed.




Lemma clamp_nan (x : float) :
  B64.isnan x = true -> B64.isnan (B64.min (B64.max x 0) 1) = true.
Proof.
  intros Hx. unfold B64.max, B64.min.
  destruct (PrimFloat.ltb x 0) eqn:E0.
  { apply lt_numbers in E0 as [E0 _]. congruence. }
  destruct (PrimFloat.ltb 1 x) eqn:E1; [| exact Hx].
  apply lt_numbers in E1 as [_ E1]. congruence.
Qed.



End B64Facts.

(** ** The loop over the nearest paintings *)

Section B64Loop.

Local Open Scope float_scope.






End B64Loop.

(** ** The claims that rest on the arithmetic *)

Section B64Claims.

Local Open Scope float_scope.







End B64Claims.

(** ** The label on binary64 means *)

Section B64Label.

Local Open Scope float_scope.




End B64Label.
